(** * The inventory and sales store of app.py (class InventoryManager)

    A shallow embedding of the data-access layer: the two JSON documents
    of the local fallback, the two tables of the remote service, the list
    [self.flavors], and the methods that read and write them.  Every
    method of the class wraps its body in [try: ... except Exception:],
    so the embedding threads the world through a small state-and-exception
    monad and models [except] as a handler. *)

From Stdlib Require Import ZArith List Ascii String Bool Lia.
From Stdlib Require Import Sorting.Sorted Sorting.Permutation.
From stdpp Require Import gmap strings sorting.

Local Open Scope string_scope.
Local Open Scope list_scope.
Local Open Scope Z_scope.

(** ** Python strings

    A [str] is modelled by [string]; the character classes below are the
    ASCII ones, so [strip] and [title] agree with Python on ASCII text
    (the Unicode tables for other code points are not part of the
    repository). *)

Module PyStr.

(** [str.isspace] on one ASCII character: TAB, LF, VT, FF, CR, the four
    separators FS GS RS US, and the space. *)
Definition isspace (c : ascii) : bool :=
  let n := N_of_ascii c in
  ((9 <=? n) && (n <=? 13) || (28 <=? n) && (n <=? 32))%N.

Definition isupper (c : ascii) : bool :=
  let n := N_of_ascii c in ((65 <=? n) && (n <=? 90))%N.

Definition islower (c : ascii) : bool :=
  let n := N_of_ascii c in ((97 <=? n) && (n <=? 122))%N.

(** A character is cased when it is a letter. *)
Definition is_cased (c : ascii) : bool := isupper c || islower c.

Definition upper (c : ascii) : ascii :=
  if islower c then ascii_of_N (N_of_ascii c - 32) else c.

Definition lower (c : ascii) : ascii :=
  if isupper c then ascii_of_N (N_of_ascii c + 32) else c.

Fixpoint lstrip (s : string) : string :=
  match s with
  | String c s' => if isspace c then lstrip s' else s
  | EmptyString => EmptyString
  end.

Fixpoint rstrip (s : string) : string :=
  match s with
  | EmptyString => EmptyString
  | String c s' =>
      match rstrip s' with
      | EmptyString => if isspace c then EmptyString else String c EmptyString
      | r => String c r
      end
  end.

(** [s.strip()] *)
Definition strip (s : string) : string := rstrip (lstrip s).

(** The loop of [str.title]: a cased character that follows a cased one
    is lowered, any other character is mapped to its title (upper) case. *)
Fixpoint title_from (previous_is_cased : bool) (s : string) : string :=
  match s with
  | EmptyString => EmptyString
  | String c s' =>
      String (if previous_is_cased then lower c else upper c)
             (title_from (is_cased c) s')
  end.

(** [s.title()] *)
Definition title (s : string) : string := title_from false s.

(** ** [sorted] and [list.sort]

    Python's sort is stable.  With [reverse=True] CPython reverses the
    list, sorts it in ascending order and reverses the result, which
    keeps equal keys in their original order. *)

Fixpoint insert_by {A : Type} (le : A -> A -> bool) (x : A) (l : list A)
  : list A :=
  match l with
  | [] => [x]
  | y :: l' => if le x y then x :: l else y :: insert_by le x l'
  end.

Definition sort_by {A : Type} (le : A -> A -> bool) (l : list A) : list A :=
  foldr (insert_by le) [] l.

Definition key_le {A : Type} (key : A -> string) (a b : A) : bool :=
  String.leb (key a) (key b).

Definition sorted {A : Type} (key : A -> string) (reverse : bool)
  (l : list A) : list A :=
  if reverse then rev (sort_by (key_le key) (rev l))
  else sort_by (key_le key) l.

End PyStr.

(** ** The world the store runs in *)

(** An on-disk document: missing, present but not parseable as JSON, or
    holding a value of the shape the store writes. *)
Inductive file (A : Type) : Type :=
  | Absent
  | Garbled
  | Holds (doc : A).
Arguments Absent {A}.
Arguments Garbled {A}.
Arguments Holds {A} doc.

(** A row of the remote table [inventory(flavor, count, updated_at)]. *)
Record inventory_row := {
  row_flavor : string;
  row_count : Z;
  row_updated_at : string
}.

(** A sale record, as a JSON object of data/sales.json or a row of the
    remote table [sales].  The store reads ['sale_date'] and ['timestamp']
    with [.get(key, '')], so a record may lack them. *)
Record sale := {
  flavor : string;
  quantity : Z;
  sale_date : option string;
  timestamp : option string
}.

(** The tables behind the module-level [supabase] client. *)
Record client := {
  inventory_tbl : list inventory_row;
  sales_tbl : list sale
}.

(** [flavors] is [self.flavors]; [supabase] is the module global, [None]
    in local storage mode; [today] and [now] are the readings of
    [date.today().isoformat()] and [datetime.now().isoformat()].
    [faults] is the schedule of input/output failures still to come: each
    remote [.execute()] and each file write takes the head of the list
    and raises when it is [true]; an exhausted schedule means no further
    failure. *)
Record world := {
  flavors : list string;
  inventory_json : file (gmap string Z);
  sales_json : file (list sale);
  supabase : option client;
  today : string;
  now : string;
  faults : list bool
}.

Definition set_flavors (l : list string) (w : world) : world :=
  {| flavors := l; inventory_json := inventory_json w;
     sales_json := sales_json w; supabase := supabase w;
     today := today w; now := now w; faults := faults w |}.

Definition set_inventory_json (d : file (gmap string Z)) (w : world) : world :=
  {| flavors := flavors w; inventory_json := d;
     sales_json := sales_json w; supabase := supabase w;
     today := today w; now := now w; faults := faults w |}.

Definition set_sales_json (d : file (list sale)) (w : world) : world :=
  {| flavors := flavors w; inventory_json := inventory_json w;
     sales_json := d; supabase := supabase w;
     today := today w; now := now w; faults := faults w |}.

Definition set_supabase (c : option client) (w : world) : world :=
  {| flavors := flavors w; inventory_json := inventory_json w;
     sales_json := sales_json w; supabase := c;
     today := today w; now := now w; faults := faults w |}.

Definition set_faults (l : list bool) (w : world) : world :=
  {| flavors := flavors w; inventory_json := inventory_json w;
     sales_json := sales_json w; supabase := supabase w;
     today := today w; now := now w; faults := l |}.

(** ** State and exceptions *)

Inductive outcome (A : Type) : Type :=
  | Returns (a : A)
  | Raises.
Arguments Returns {A} a.
Arguments Raises {A}.

Definition io (A : Type) : Type := world -> outcome A * world.

Definition ret {A : Type} (a : A) : io A := fun w => (Returns a, w).

Definition bind {A B : Type} (m : io A) (k : A -> io B) : io B :=
  fun w =>
    match m w with
    | (Returns a, w') => k a w'
    | (Raises, w') => (Raises, w')
    end.

(** [try: body except Exception: handler]; what [body] wrote before it
    raised stays written. *)
Definition try_except {A : Type} (body handler : io A) : io A :=
  fun w =>
    match body w with
    | (Returns a, w') => (Returns a, w')
    | (Raises, w') => handler w'
    end.

Notation "x <- m ;; k" := (bind m (fun x => k))
  (at level 100, m at next level, right associativity).
Notation "m ;;; k" := (bind m (fun _ => k))
  (at level 100, right associativity).

(** Takes the next entry of the fault schedule. *)
Definition next_fault (w : world) : bool * world :=
  match faults w with
  | [] => (false, w)
  | b :: rest => (b, set_faults rest w)
  end.

(** [if supabase: remote else: local] *)
Definition if_supabase {A : Type} (remote local : io A) : io A :=
  fun w => match supabase w with Some _ => remote w | None => local w end.

(** [query.execute()]: raises on a scheduled fault, leaving the tables as
    they were, and runs the query on the tables otherwise. *)
Definition execute {A : Type} (query : client -> A * client) : io A :=
  fun w =>
    match supabase w with
    | None => (Raises, w)
    | Some db =>
        match next_fault w with
        | (true, w') => (Raises, w')
        | (false, w') =>
            let (a, db') := query db in (Returns a, set_supabase (Some db') w')
        end
    end.

(** *** The queries the store sends *)

Module Query.

(** [table('inventory').select('*')] *)
Definition select_inventory (db : client) : list inventory_row * client :=
  (inventory_tbl db, db).

(** [table('inventory').select('*').eq('flavor', flavor)] *)
Definition select_inventory_eq (f : string) (db : client)
  : list inventory_row * client :=
  (List.filter (fun r => String.eqb (row_flavor r) f) (inventory_tbl db), db).

(** [table('inventory').insert({...})] *)
Definition insert_inventory (r : inventory_row) (db : client) : unit * client :=
  (tt, {| inventory_tbl := inventory_tbl db ++ [r]; sales_tbl := sales_tbl db |}).

(** [table('inventory').update({'count': c, 'updated_at': t}).eq('flavor', f)] *)
Definition update_inventory_eq (f : string) (c : Z) (t : string) (db : client)
  : unit * client :=
  (tt, {| inventory_tbl :=
            List.map (fun r => if String.eqb (row_flavor r) f
                               then {| row_flavor := row_flavor r;
                                       row_count := c;
                                       row_updated_at := t |}
                               else r) (inventory_tbl db);
          sales_tbl := sales_tbl db |}).

(** [table('sales').insert(sale_data)] *)
Definition insert_sale (s : sale) (db : client) : unit * client :=
  (tt, {| inventory_tbl := inventory_tbl db; sales_tbl := sales_tbl db ++ [s] |}).

End Query.

(** ** class InventoryManager *)

Module InventoryManager.

(** The list [__init__] assigns to [self.flavors]. *)
Definition seed_flavors : list string :=
  [ "Vanilla"; "Chocolate"; "Strawberry"; "Mango";
    "Kulfi"; "Butterscotch"; "Pista"; "Chocolate Chip";
    "Black Current"; "Orange"; "Coconut"; "Cassata" ].

(** [{flavor: 0 for flavor in flavors}] *)
Definition default_inventory (fl : list string) : gmap string Z :=
  foldl (fun inv f => <[f := 0]> inv) ∅ fl.

(** [current_inventory.get(flavor, 0)] *)
Definition dict_get (inv : gmap string Z) (f : string) : Z :=
  match inv !! f with Some c => c | None => 0 end.

(** [with open(filename, 'w') as f: json.dump(data, f, indent=2)]; a write
    that fails is one whose [open] raises, so the document stays as it
    was. *)
Definition json_dump {A : Type} (write : file A -> world -> world) (data : A)
  : io unit :=
  fun w =>
    match next_fault w with
    | (true, w') => (Raises, w')
    | (false, w') => (Returns tt, write (Holds data) w')
    end.

Definition _save_to_file {A : Type} (write : file A -> world -> world)
  (data : A) : io unit :=
  try_except (json_dump write data) (ret tt).

(** [if os.path.exists(filename): with open(filename, 'r') as f:
    return json.load(f)]; [None] stands for falling out of the [if]. *)
Definition json_load {A : Type} (read : world -> file A) : io (option A) :=
  fun w =>
    match read w with
    | Absent => (Returns None, w)
    | Garbled => (Raises, w)
    | Holds d => (Returns (Some d), w)
    end.

(** The document to read and the default that the test
    ['inventory' in filename] selects are passed by the two callers
    below. *)
Definition _load_from_file {A : Type} (read : world -> file A)
  (default : io A) : io A :=
  loaded <- try_except (json_load read) (ret None) ;;
  match loaded with
  | Some d => ret d
  | None => default
  end.

(** [self._load_from_file('data/inventory.json')] *)
Definition load_inventory_json : io (gmap string Z) :=
  _load_from_file inventory_json
    (fun w => (Returns (default_inventory (flavors w)), w)).

(** [self._load_from_file('data/sales.json')] *)
Definition load_sales_json : io (list sale) :=
  _load_from_file sales_json (ret []).

Definition _init_local_storage : io unit :=
  (fun w =>
     match inventory_json w with
     | Absent => _save_to_file set_inventory_json
                   (default_inventory (flavors w)) w
     | _ => (Returns tt, w)
     end) ;;;
  (fun w =>
     match sales_json w with
     | Absent => _save_to_file set_sales_json [] w
     | _ => (Returns tt, w)
     end).

(** [__init__] *)
Definition init : io unit :=
  (fun w => (Returns tt, set_flavors seed_flavors w)) ;;;
  _init_local_storage.

(** The loop [for item in response.data:
    inventory[item['flavor']] = item['count']]. *)
Definition rows_to_dict (rows : list inventory_row) : gmap string Z :=
  foldl (fun inv item => <[row_flavor item := row_count item]> inv) ∅ rows.

Definition get_inventory : io (gmap string Z) :=
  try_except
    (if_supabase
       (response <- execute Query.select_inventory ;;
        ret (rows_to_dict response))
       load_inventory_json)
    (fun w => (Returns (default_inventory (flavors w)), w)).

(** [flavor in l] *)
Definition list_contains (l : list string) (f : string) : bool :=
  existsb (String.eqb f) l.

(** [if flavor not in self.flavors: self.flavors.append(flavor);
    self.flavors.sort()] *)
Definition remember_flavor (f : string) : io unit :=
  fun w =>
    if list_contains (flavors w) f then (Returns tt, w)
    else (Returns tt,
          set_flavors (PyStr.sorted (fun x => x) false (flavors w ++ [f])) w).

Definition add_new_flavor (flavor : string) : io bool :=
  try_except
    (let flavor := PyStr.title (PyStr.strip flavor) in
     if String.eqb flavor "" then ret false
     else
       current_inventory <- get_inventory ;;
       match current_inventory !! flavor with
       | Some _ => ret false
       | None =>
           if_supabase
             (fun w =>
                execute (Query.insert_inventory
                           {| row_flavor := flavor; row_count := 0;
                              row_updated_at := now w |}) w)
             (_save_to_file set_inventory_json
                (<[flavor := 0]> current_inventory)) ;;;
           remember_flavor flavor ;;;
           ret true
       end)
    (ret false).

Definition new_count (current_inventory : gmap string Z) (flavor : string)
  (count : Z) (operation : string) : Z :=
  if String.eqb operation "add" then
    dict_get current_inventory flavor + count
  else if String.eqb operation "subtract" then
    Z.max 0 (dict_get current_inventory flavor - count)
  else count.

Definition update_inventory (flavor : string) (count : Z)
  (operation : string) : io bool :=
  try_except
    (current_inventory <- get_inventory ;;
     let new_count := new_count current_inventory flavor count operation in
     if_supabase
       (existing <- execute (Query.select_inventory_eq flavor) ;;
        match existing with
        | _ :: _ =>
            fun w =>
              execute (Query.update_inventory_eq flavor new_count (now w)) w
        | [] =>
            fun w =>
              execute (Query.insert_inventory
                         {| row_flavor := flavor; row_count := new_count;
                            row_updated_at := now w |}) w
        end)
       (_save_to_file set_inventory_json
          (<[flavor := new_count]> current_inventory)) ;;;
     ret true)
    (ret false).

(** The dictionary [sale_data] of [record_sale]. *)
Definition sale_data (flavor : string) (quantity : Z) (w : world) : sale :=
  {| flavor := flavor; quantity := quantity;
     sale_date := Some (today w); timestamp := Some (now w) |}.

(** The block of [record_sale] that writes the sale record. *)
Definition store_sale (s : sale) : io unit :=
  if_supabase
    (execute (Query.insert_sale s))
    (sales <- load_sales_json ;;
     _save_to_file set_sales_json (sales ++ [s])).

Definition record_sale (flavor : string) (quantity : Z) : io bool :=
  try_except
    (current_inventory <- get_inventory ;;
     if dict_get current_inventory flavor <? quantity then ret false
     else
       (fun w => store_sale (sale_data flavor quantity w) w) ;;;
       update_inventory flavor quantity "subtract" ;;;
       ret true)
    (ret false).

(** [lambda x: x.get('timestamp', '')] *)
Definition timestamp_key (x : sale) : string :=
  match timestamp x with Some t => t | None => "" end.

Section Remote.

(** What the remote service answers to
    [.order('timestamp', desc=True)] is decided by the service; the store
    only forwards the rows. *)
Variable order_timestamp_desc : list sale -> list sale.

(** [table('sales').select('*').order('timestamp', desc=True).limit(100)] *)
Definition select_sales (db : client) : list sale * client :=
  (take 100 (order_timestamp_desc (sales_tbl db)), db).

Definition get_sales_data (days : Z) : io (list sale) :=
  try_except
    (if_supabase
       (execute select_sales)
       (sales <- load_sales_json ;;
        ret (PyStr.sorted timestamp_key true sales)))
    (ret []).

End Remote.

(** [table('inventory').select('flavor')], read through
    [[item['flavor'] for item in response.data]]. *)
Definition select_flavors (db : client) : list string * client :=
  (List.map row_flavor (inventory_tbl db), db).

(** [all_flavors = list(set(l)); all_flavors.sort()].  The set forgets
    order and repetitions; the order in which [list] enumerates it does
    not show after the sort. *)
Definition sorted_set (l : list string) : list string :=
  PyStr.sorted (fun x => x) false (elements (list_to_set l : gset string)).

Definition get_all_flavors : io (list string) :=
  try_except
    (if_supabase
       (db_flavors <- execute select_flavors ;;
        fun w => (Returns (sorted_set (flavors w ++ db_flavors)), w))
       (inventory <- load_inventory_json ;;
        fun w =>
          (Returns (sorted_set (flavors w ++ List.map fst (map_to_list inventory))),
           w)))
    (fun w => (Returns (flavors w), w)).

(** The entries [{'flavor': flavor, 'count': count}] are pairs; the order
    of [inventory.items()] is not kept by the finite map, so the list
    comes in the map's own order. *)
Definition get_low_stock_items (threshold : Z) : io (list (string * Z)) :=
  inventory <- get_inventory ;;
  ret (List.filter (fun item => snd item <? threshold) (map_to_list inventory)).

(** A call of one of the three writing methods, and a run of calls. *)
Inductive call : Type :=
  | UpdateInventory (flavor : string) (count : Z) (operation : string)
  | AddNewFlavor (flavor : string)
  | RecordSale (flavor : string) (quantity : Z).

Definition perform (c : call) : io bool :=
  match c with
  | UpdateInventory f n m => update_inventory f n m
  | AddNewFlavor f => add_new_flavor f
  | RecordSale f q => record_sale f q
  end.

Definition run (cs : list call) (w : world) : world :=
  foldl (fun w c => snd (perform c w)) w cs.

(** What a reader of the store sees: the count [get_inventory] reports
    for a flavor, and the sales log of the active backend. *)
Definition stock (w : world) (f : string) : Z :=
  match fst (get_inventory w) with
  | Returns inv => dict_get inv f
  | Raises => 0
  end.

Definition sales_log (w : world) : list sale :=
  match supabase w with
  | Some db => sales_tbl db
  | None => match sales_json w with Holds l => l | _ => [] end
  end.

End InventoryManager.

Import InventoryManager.

(** ** Vocabulary of the statements *)

(** The mapping the active backend holds: what [get_inventory] returns
    when no call fails. *)
Definition snapshot (w : world) : gmap string Z :=
  match supabase w with
  | Some db => rows_to_dict (inventory_tbl db)
  | None =>
      match inventory_json w with
      | Holds m => m
      | _ => default_inventory (flavors w)
      end
  end.

(** [existing.data] is non-empty. *)
Definition has_row (f : string) (rows : list inventory_row) : bool :=
  existsb (fun r => String.eqb (row_flavor r) f) rows.

(** Nothing that is stored has changed; only the fault schedule may have
    advanced. *)
Definition same_store (w w' : world) : Prop :=
  flavors w' = flavors w /\ inventory_json w' = inventory_json w /\
  sales_json w' = sales_json w /\ supabase w' = supabase w /\
  today w' = today w /\ now w' = now w.

(** The catalog, the clock, the fault schedule and the choice of backend
    are as before. *)
Definition keeps_rest (w w' : world) : Prop :=
  flavors w' = flavors w /\ today w' = today w /\ now w' = now w /\
  faults w' = faults w /\
  (supabase w = None <-> supabase w' = None).

(** A read of the inventory fails: the remote query raises, or the local
    document does not parse. *)
Definition backend_failure (w : world) : Prop :=
  match supabase w with
  | Some _ => exists rest, faults w = true :: rest
  | None => inventory_json w = Garbled
  end.

Definition dict_nonneg (inv : gmap string Z) : Prop :=
  map_Forall (fun _ c => 0 <= c) inv.

(** Every stored count, in the local document and in the remote table,
    is non-negative. *)
Definition counts_nonneg (w : world) : Prop :=
  (forall m, inventory_json w = Holds m -> dict_nonneg m) /\
  (forall db, supabase w = Some db ->
     Forall (fun r => 0 <= row_count r) (inventory_tbl db)).

(** Every stored count is zero. *)
Definition all_zero (w : world) : Prop :=
  (forall m, inventory_json w = Holds m -> map_Forall (fun _ c => c = 0) m) /\
  (forall db, supabase w = Some db ->
     Forall (fun r => row_count r = 0) (inventory_tbl db)).

(** The caller's side of [update_inventory]: a count to set or to add is
    not negative. *)
Definition guarded (c : call) : Prop :=
  match c with
  | UpdateInventory _ n op => op = "subtract" \/ 0 <= n
  | _ => True
  end.

(** [m] preserves [counts_nonneg], and what it returns satisfies [Q]. *)
Definition keeps {A : Type} (m : io A) (Q : A -> Prop) : Prop :=
  forall w, counts_nonneg w ->
    counts_nonneg (snd (m w)) /\ forall a, fst (m w) = Returns a -> Q a.

(** Newest first. *)
Definition newer_or_equal (a b : sale) : Prop :=
  String.leb (timestamp_key b) (timestamp_key a) = true.

(** *** Sample worlds *)

(** An empty data directory, local storage mode, nothing failing. *)
Definition fresh : world :=
  {| flavors := []; inventory_json := Absent; sales_json := Absent;
     supabase := None; today := "2024-05-01";
     now := "2024-05-01T09:30:00"; faults := [] |}.

(** The store after [InventoryManager()] on [fresh]. *)
Definition shop : world := snd (init fresh).

(** [shop] with 50 Vanilla in stock. *)
Definition stocked : world := run [UpdateInventory "Vanilla" 50 "add"] shop.

(** A store whose inventory document does not parse. *)
Definition garbled_shop : world := set_inventory_json Garbled shop.

(** A store on the remote backend. *)
Definition cloud : world :=
  {| flavors := seed_flavors; inventory_json := Absent; sales_json := Absent;
     supabase :=
       Some {| inventory_tbl :=
                 [ {| row_flavor := "Vanilla"; row_count := 5;
                      row_updated_at := "2024-04-30T18:00:00" |};
                   {| row_flavor := "Mango"; row_count := 0;
                      row_updated_at := "2024-04-30T18:00:00" |} ];
               sales_tbl := [] |};
     today := "2024-05-01"; now := "2024-05-01T09:30:00"; faults := [] |}.

(** [cloud] with the fourth remote call from now failing. *)
Definition flaky_cloud : world := set_faults [false; false; false; true] cloud.

(** [cloud] with the next remote call failing. *)
Definition offline_cloud : world := set_faults [true] cloud.

Definition undated : sale :=
  {| flavor := "Mango"; quantity := 1; sale_date := None; timestamp := None |}.

Definition dated : sale :=
  {| flavor := "Kulfi"; quantity := 2; sale_date := Some "2024-04-30";
     timestamp := Some "2024-04-30T12:00:00" |}.

(** A local store whose sales log starts with a record without a
    timestamp. *)
Definition ledger : world := set_sales_json (Holds [undated; dated]) shop.

(** ** The route handlers

    The handlers are modelled from the values they take out of the
    request: [request.form.get(...)] is an [option string], and a count
    is the integer that [int(...)] made of the form field.  What they
    hand to [flash], [render_template] and [jsonify] is their result. *)

Module Routes.

(** The messages passed to [flash]; the interpolated values are the
    arguments. *)
Inductive flash_message : Type :=
  | AddedStock (count : Z) (flavor : string)
  | ErrorAddingStock
  | InvalidFlavorAndCount
  | RecordedSale (quantity : Z) (flavor : string)
  | NotEnoughStockOrError
  | InvalidFlavorAndQuantity
  | AddedFlavor (new_flavor : string)
  | FlavorExistsOrError (new_flavor : string)
  | InvalidFlavorName.

Record flash := { message : flash_message; category : string }.

(** Truth value of [request.form.get('flavor')]. *)
Definition truthy (s : option string) : bool :=
  match s with
  | Some f => negb (String.eqb f "")
  | None => false
  end.

(** POST /add_stock *)
Definition add_stock (flavor : option string) (count : Z) : io flash :=
  match flavor with
  | Some f =>
      if truthy flavor && (0 <? count) then
        ok <- update_inventory f count "add" ;;
        if ok : bool then
          ret {| message := AddedStock count f; category := "success" |}
        else ret {| message := ErrorAddingStock; category := "error" |}
      else ret {| message := InvalidFlavorAndCount; category := "error" |}
  | None => ret {| message := InvalidFlavorAndCount; category := "error" |}
  end.

(** POST /record_sale *)
Definition record_sale (flavor : option string) (quantity : Z) : io flash :=
  match flavor with
  | Some f =>
      if truthy flavor && (0 <? quantity) then
        ok <- InventoryManager.record_sale f quantity ;;
        if ok : bool then
          ret {| message := RecordedSale quantity f; category := "success" |}
        else ret {| message := NotEnoughStockOrError; category := "error" |}
      else ret {| message := InvalidFlavorAndQuantity; category := "error" |}
  | None => ret {| message := InvalidFlavorAndQuantity; category := "error" |}
  end.

(** POST /manage_flavors;
    [request.form.get('new_flavor', '').strip().title()] *)
Definition manage_flavors (new_flavor : option string) : io flash :=
  let new_flavor :=
    PyStr.title (PyStr.strip (match new_flavor with Some s => s | None => "" end)) in
  if negb (String.eqb new_flavor "") then
    ok <- add_new_flavor new_flavor ;;
    if ok : bool then
      ret {| message := AddedFlavor new_flavor; category := "success" |}
    else ret {| message := FlavorExistsOrError new_flavor; category := "error" |}
  else ret {| message := InvalidFlavorName; category := "error" |}.

(** A form submission, and a series of them. *)
Inductive post : Type :=
  | PostAddStock (flavor : option string) (count : Z)
  | PostRecordSale (flavor : option string) (quantity : Z)
  | PostManageFlavors (new_flavor : option string).

Definition handle (p : post) : io flash :=
  match p with
  | PostAddStock f n => add_stock f n
  | PostRecordSale f q => record_sale f q
  | PostManageFlavors s => manage_flavors s
  end.

Definition serve (ps : list post) (w : world) : world :=
  foldl (fun w p => snd (handle p w)) w ps.

(** The arguments of [render_template('dashboard.html', ...)]. *)
Record dashboard_page := {
  page_inventory : gmap string Z;
  low_stock : list (string * Z);
  total_items : Z;
  total_flavors : Z;
  page_flavors : list string
}.

(** GET / ; the lists follow the finite map's own order. *)
Definition dashboard : io dashboard_page :=
  inventory <- get_inventory ;;
  fun w =>
    (Returns
       {| page_inventory := inventory;
          low_stock :=
            List.filter (fun item => (0 <? snd item) && (snd item <? 10))
              (map_to_list inventory);
          total_items := foldr Z.add 0 (List.map snd (map_to_list inventory));
          total_flavors :=
            Z.of_nat (length (List.filter (fun count => 0 <? count)
                                (List.map snd (map_to_list inventory))));
          page_flavors := flavors w |},
     w).

(** [if flavor in flavor_totals: flavor_totals[flavor] += quantity
    else: flavor_totals[flavor] = quantity], on a dictionary kept in
    insertion order. *)
Fixpoint bump (f : string) (q : Z) (totals : list (string * Z))
  : list (string * Z) :=
  match totals with
  | [] => [(f, q)]
  | (g, t) :: rest =>
      if String.eqb g f then (g, t + q) :: rest else (g, t) :: bump f q rest
  end.

(** The variables of the loop of [sales_report]. *)
Record tally := {
  today_sales : list sale;
  flavor_totals : list (string * Z);
  total_sales_today : Z
}.

(** One turn of [for sale in sales_data:]. *)
Definition count_sale (today : string) (t : tally) (s : sale) : tally :=
  let is_today :=
    String.eqb (match sale_date s with Some d => d | None => "" end) today in
  {| today_sales := if is_today then today_sales t ++ [s] else today_sales t;
     flavor_totals := bump (flavor s) (quantity s) (flavor_totals t);
     total_sales_today :=
       if is_today then total_sales_today t + quantity s
       else total_sales_today t |}.

Definition count_sales (today : string) (sales_data : list sale) : tally :=
  foldl (count_sale today)
    {| today_sales := []; flavor_totals := []; total_sales_today := 0 |}
    sales_data.

(** [sorted(l, key=lambda x: x[1], reverse=True)] *)
Definition sorted_by_total (l : list (string * Z)) : list (string * Z) :=
  rev (PyStr.sort_by (fun a b => snd a <=? snd b) (rev l)).

(** The arguments of [render_template('sales_report.html', ...)]. *)
Record sales_report_page := {
  report_today_sales : list sale;
  report_total_sales_today : Z;
  top_flavors : list (string * Z);
  recent_sales : list sale
}.

Definition report (today : string) (sales_data : list sale)
  : sales_report_page :=
  let t := count_sales today sales_data in
  {| report_today_sales := today_sales t;
     report_total_sales_today := total_sales_today t;
     top_flavors := take 5 (sorted_by_total (flavor_totals t));
     recent_sales := take 20 sales_data |}.

Section Remote.

Variable order_timestamp_desc : list sale -> list sale.

(** GET /sales_report *)
Definition sales_report : io sales_report_page :=
  sales_data <- get_sales_data order_timestamp_desc 30 ;;
  fun w => (Returns (report (today w) sales_data), w).

End Remote.

(** The body and status of a JSON answer; the message text is left out. *)
Record json_response := { success : bool; status : Z }.


(** POST /api/record_sale, for a body that carries a string under
    ['flavor']. *)
Definition api_record_sale (flavor : string) (quantity : Z)
  : io json_response :=
  ok <- InventoryManager.record_sale flavor quantity ;;
  if ok : bool then ret {| success := true; status := 200 |}
  else ret {| success := false; status := 400 |}.

End Routes.

(** *** More vocabulary *)

(** The sales log has only grown, and the backend is the same. *)
Definition log_grows (w w' : world) : Prop :=
  (supabase w = None <-> supabase w' = None) /\
  sales_log w `prefix_of` sales_log w'.


(** ASCII letters lowered, as [str.lower] does on ASCII text. *)
Fixpoint lowered (s : string) : string :=
  match s with
  | EmptyString => EmptyString
  | String c s' => String (PyStr.lower c) (lowered s')
  end.

(** Every character is white space. *)
Fixpoint blank (s : string) : bool :=
  match s with
  | EmptyString => true
  | String c s' => PyStr.isspace c && blank s'
  end.

(** The sum of the quantities of the records that satisfy [p]. *)
Definition quantity_where (p : sale -> bool) (l : list sale) : Z :=
  foldr Z.add 0 (List.map quantity (List.filter p l)).

(** [flavor_totals.get(f)] on the dictionary kept as a list. *)
Fixpoint total_of (f : string) (totals : list (string * Z)) : option Z :=
  match totals with
  | [] => None
  | (g, t) :: rest => if String.eqb g f then Some t else total_of f rest
  end.

(** [sale.get('sale_date', '') == today] *)
Definition sold_on (today : string) (s : sale) : bool :=
  String.eqb (match sale_date s with Some d => d | None => "" end) today.

(** [sale['flavor'] == f] *)
Definition sale_of (f : string) (s : sale) : bool := String.eqb (flavor s) f.

(** More sales first. *)
Definition sells_at_least (a b : string * Z) : Prop := snd b <= snd a.

(** A store in local mode with an inventory of three flavors. *)
Definition pantry : world :=
  set_inventory_json
    (Holds (<["Vanilla" := 5]> (<["Chocolate" := 12]> (<["Mango" := 0]> ∅))))
    shop.

(** ** Facts about strings and sorting *)

Example strip_title_mango : PyStr.title (PyStr.strip "  mango ") = "Mango".
Proof. reflexivity. Qed.

Example title_after_apostrophe : PyStr.title "they're" = "They'Re".
Proof. reflexivity. Qed.

Example sorted_reverse_stable :
  PyStr.sorted (fun p : string * nat => fst p) true
    [("a", 1%nat); ("b", 2%nat); ("", 3%nat); ("b", 4%nat)]
  = [("b", 2%nat); ("b", 4%nat); ("a", 1%nat); ("", 3%nat)].
Proof. reflexivity. Qed.

Lemma ascii_compare_spec (a b : ascii) :
  CompareSpec (a = b) (N_of_ascii a < N_of_ascii b)%N
    (N_of_ascii b < N_of_ascii a)%N (Ascii.compare a b).
Proof.
  unfold Ascii.compare. destruct (N.compare_spec (N_of_ascii a) (N_of_ascii b)) as [E|L|G];
    constructor; try done.
  rewrite <- (ascii_N_embedding a), <- (ascii_N_embedding b). by rewrite E.
Qed.

Lemma string_leb_trans (a b c : string) :
  String.leb a b = true -> String.leb b c = true -> String.leb a c = true.
Proof.
  unfold String.leb. revert b c.
  induction a as [|x a IH]; intros [|y b] [|z c]; simpl; try done.
  destruct (ascii_compare_spec x y), (ascii_compare_spec y z),
    (ascii_compare_spec x z); subst; try done; try lia; try apply IH.
  all: rewrite ?N.lt_irrefl in *; try done.
  all: try (exfalso; lia).
Qed.

Lemma string_leb_empty_l s : String.leb "" s = true.
Proof. by destruct s. Qed.

Lemma string_leb_empty_r s : String.leb s "" = true -> s = "".
Proof. by destruct s. Qed.

Section Sorting.
Context {A : Type} (key : A -> string).

Local Abbreviation le := (fun a b : A => PyStr.key_le key a b = true).

Lemma insert_by_perm x l : Permutation (x :: l) (PyStr.insert_by (PyStr.key_le key) x l).
Proof.
  induction l as [|y l IH]; simpl; [done|].
  destruct (PyStr.key_le key x y); [done|].
  rewrite perm_swap. by constructor.
Qed.

Lemma sort_by_perm l : Permutation l (PyStr.sort_by (PyStr.key_le key) l).
Proof.
  induction l as [|x l IH]; simpl; [done|].
  rewrite <- insert_by_perm. by constructor.
Qed.

Lemma key_le_total a b : le a b \/ le b a.
Proof. apply String.leb_total. Qed.

Lemma key_le_trans a b c : le a b -> le b c -> le a c.
Proof. apply string_leb_trans. Qed.

Lemma insert_by_sorted x l :
  StronglySorted le l -> StronglySorted le (PyStr.insert_by (PyStr.key_le key) x l).
Proof.
  induction 1 as [|y l Hs IH Hy]; simpl; [by repeat constructor|].
  destruct (PyStr.key_le key x y) eqn:Hxy.
  - constructor; [by constructor|]. constructor; [done|].
    eapply Forall_impl; [exact Hy|]. intros z Hz. by eapply key_le_trans.
  - constructor; [done|].
    rewrite <- insert_by_perm. constructor; [|done].
    destruct (key_le_total x y) as [H|H]; [congruence|done].
Qed.

Lemma sort_by_sorted l : StronglySorted le (PyStr.sort_by (PyStr.key_le key) l).
Proof.
  induction l as [|x l IH]; simpl; [constructor|]. by apply insert_by_sorted.
Qed.

Lemma sorted_rev (R : A -> A -> Prop) l :
  StronglySorted R l -> StronglySorted (fun a b => R b a) (rev l).
Proof.
  induction 1 as [|x l Hs IH Hx]; simpl; [constructor|].
  apply StronglySorted_app. split; [|split; [done | by repeat constructor]].
  intros a b Ha Hb. apply list_elem_of_singleton in Hb as ->.
  rewrite Forall_forall in Hx. apply Hx. apply list_elem_of_In, in_rev, list_elem_of_In. done.
Qed.

End Sorting.

(** ** Runs without faults *)

Lemma set_supabase_same w db : supabase w = Some db -> set_supabase (Some db) w = w.
Proof. destruct w; simpl; intros ->; reflexivity. Qed.

Lemma next_fault_quiet w : faults w = [] -> next_fault w = (false, w).
Proof. unfold next_fault. intros ->. reflexivity. Qed.

Lemma execute_quiet {A} (q : client -> A * client) w db :
  faults w = [] -> supabase w = Some db ->
  execute q w = (Returns (fst (q db)), set_supabase (Some (snd (q db))) w).
Proof.
  intros Hf Hs. unfold execute. rewrite Hs, (next_fault_quiet w Hf).
  destruct (q db); reflexivity.
Qed.

Lemma save_quiet {A} (wr : file A -> world -> world) (d : A) w :
  faults w = [] -> _save_to_file wr d w = (Returns tt, wr (Holds d) w).
Proof.
  intros Hf. unfold _save_to_file, try_except, json_dump.
  rewrite (next_fault_quiet w Hf). reflexivity.
Qed.

Lemma get_inventory_quiet w :
  faults w = [] -> get_inventory w = (Returns (snapshot w), w).
Proof.
  intros Hf. unfold get_inventory, try_except, if_supabase, snapshot.
  destruct (supabase w) as [db|] eqn:Hs.
  - unfold bind. rewrite (execute_quiet _ w db Hf Hs). simpl.
    rewrite (set_supabase_same w db Hs). reflexivity.
  - unfold load_inventory_json, _load_from_file, bind, try_except, json_load.
    destruct (inventory_json w); reflexivity.
Qed.

Lemma stock_quiet w f : faults w = [] -> stock w f = dict_get (snapshot w) f.
Proof. intros Hf. unfold stock. rewrite (get_inventory_quiet w Hf). reflexivity. Qed.

Lemma rows_to_dict_snoc l r :
  rows_to_dict (l ++ [r]) = <[row_flavor r := row_count r]> (rows_to_dict l).
Proof. unfold rows_to_dict. rewrite foldl_app. reflexivity. Qed.

Lemma filter_nil_has_row f rows :
  List.filter (fun r => String.eqb (row_flavor r) f) rows = [] <-> has_row f rows = false.
Proof.
  unfold has_row. induction rows as [|r rows IH]; simpl; [tauto|].
  destruct (String.eqb (row_flavor r) f); simpl; [split; discriminate | exact IH].
Qed.

Lemma rows_to_dict_update f c t rows :
  rows_to_dict
    (List.map (fun r => if String.eqb (row_flavor r) f
                        then {| row_flavor := row_flavor r; row_count := c;
                                row_updated_at := t |}
                        else r) rows)
  = if has_row f rows then <[f := c]> (rows_to_dict rows) else rows_to_dict rows.
Proof.
  induction rows as [|r rows IH] using rev_ind; [reflexivity|].
  rewrite map_app. simpl List.map. rewrite !rows_to_dict_snoc, IH.
  unfold has_row. rewrite existsb_app. simpl. rewrite orb_false_r.
  fold (has_row f rows).
  destruct (String.eqb_spec (row_flavor r) f) as [->|Hne]; simpl.
  - rewrite orb_true_r. destruct (has_row f rows); rewrite !insert_insert_eq; done.
  - rewrite orb_false_r. destruct (has_row f rows); [|done].
    rewrite insert_insert_ne; [done|congruence].
Qed.

Lemma update_inventory_quiet w f n op :
  faults w = [] ->
  exists w',
    update_inventory f n op w = (Returns true, w') /\
    snapshot w' = <[f := new_count (snapshot w) f n op]> (snapshot w) /\
    sales_log w' = sales_log w /\ keeps_rest w w'.
Proof.
  intros Hf. unfold update_inventory, try_except, bind.
  rewrite (get_inventory_quiet w Hf). unfold if_supabase.
  set (c := new_count (snapshot w) f n op).
  destruct (supabase w) as [db|] eqn:Hs.
  - rewrite (execute_quiet _ w db Hf Hs). simpl fst. simpl snd.
    rewrite (set_supabase_same w db Hs).
    unfold Query.select_inventory_eq. cbn [fst].
    destruct (List.filter _ (inventory_tbl db)) as [|r0 rs] eqn:Hflt; cbv beta iota.
    + rewrite (execute_quiet _ w db Hf Hs). eexists; split; [reflexivity|].
      unfold snapshot, sales_log, keeps_rest, ret. simpl. rewrite Hs.
      rewrite rows_to_dict_snoc. simpl. repeat split; try done.
    + rewrite (execute_quiet _ w db Hf Hs). eexists; split; [reflexivity|].
      unfold snapshot, sales_log, keeps_rest, ret. simpl. rewrite Hs.
      rewrite rows_to_dict_update.
      destruct (has_row f (inventory_tbl db)) eqn:Hh.
      * repeat split; try done.
      * apply filter_nil_has_row in Hh. congruence.
  - rewrite (save_quiet _ _ w Hf). eexists; split; [reflexivity|].
    unfold snapshot, sales_log, keeps_rest, ret. simpl. rewrite Hs.
    repeat split; try done.
Qed.

Lemma same_store_refl w : same_store w w.
Proof. by repeat split. Qed.

Lemma same_store_next_fault w : same_store w (snd (next_fault w)).
Proof. unfold next_fault. destruct (faults w); by repeat split. Qed.

Lemma get_inventory_returns w :
  exists inv w',
    get_inventory w = (Returns inv, w') /\ same_store w w' /\
    (inv = snapshot w \/ inv = default_inventory (flavors w)).
Proof.
  unfold get_inventory, try_except, if_supabase, snapshot.
  destruct (supabase w) as [db|] eqn:Hs.
  - unfold bind, execute. rewrite Hs.
    pose proof (same_store_next_fault w) as Hn.
    destruct (next_fault w) as [[|] w1]; simpl in *.
    + do 2 eexists. split; [reflexivity|]. split; [done|]. right.
      destruct Hn as (-> & _). done.
    + do 2 eexists. split; [reflexivity|]. split; [|by left].
      destruct Hn as (? & ? & ? & Hsb & ? & ?). unfold same_store. simpl.
      rewrite Hs. by repeat split.
  - unfold load_inventory_json, _load_from_file, bind, try_except, json_load.
    destruct (inventory_json w); do 2 eexists;
      (split; [reflexivity|]); (split; [apply same_store_refl|]); auto.
Qed.

Lemma store_sale_quiet w s :
  faults w = [] ->
  exists w',
    store_sale s w = (Returns tt, w') /\
    sales_log w' = sales_log w ++ [s] /\ snapshot w' = snapshot w /\
    keeps_rest w w'.
Proof.
  intros Hf. unfold store_sale, if_supabase.
  destruct (supabase w) as [db|] eqn:Hs.
  - rewrite (execute_quiet _ w db Hf Hs). eexists; split; [reflexivity|].
    unfold sales_log, snapshot, keeps_rest. simpl. rewrite Hs.
    by repeat split.
  - unfold bind, load_sales_json, _load_from_file, bind, try_except, json_load.
    destruct (sales_json w) eqn:Hsj; unfold ret;
      rewrite (save_quiet _ _ w Hf); (eexists; split; [reflexivity|]);
      unfold sales_log, snapshot, keeps_rest; simpl; rewrite Hs, ?Hsj;
      by repeat split.
Qed.

Lemma keeps_rest_trans w1 w2 w3 :
  keeps_rest w1 w2 -> keeps_rest w2 w3 -> keeps_rest w1 w3.
Proof.
  unfold keeps_rest. intros (?&?&?&?&?) (?&?&?&?&?).
  repeat split; try congruence; tauto.
Qed.

Lemma record_sale_quiet w f q :
  faults w = [] -> q <= dict_get (snapshot w) f ->
  exists w',
    record_sale f q w = (Returns true, w') /\
    sales_log w' = sales_log w ++ [sale_data f q w] /\
    snapshot w' = <[f := Z.max 0 (dict_get (snapshot w) f - q)]> (snapshot w) /\
    keeps_rest w w'.
Proof.
  intros Hf Hq. unfold record_sale, try_except, bind.
  rewrite (get_inventory_quiet w Hf).
  destruct (Z.ltb_spec (dict_get (snapshot w) f) q) as [?|_]; [lia|].
  destruct (store_sale_quiet w (sale_data f q w) Hf)
    as (w1 & -> & Hlog1 & Hsnap1 & Hk1).
  assert (Hf1 : faults w1 = []) by (destruct Hk1 as (_&_&_&->&_); done).
  destruct (update_inventory_quiet w1 f q "subtract" Hf1)
    as (w2 & -> & Hsnap2 & Hlog2 & Hk2).
  eexists; split; [reflexivity|]. rewrite Hsnap2, Hlog2, Hlog1, Hsnap1.
  split; [done|]. split; [done|]. eapply keeps_rest_trans; eauto.
Qed.

(** ** Preservation of non-negative counts *)

Section Keeps.
Context {A B : Type}.

Lemma keeps_ret (a : A) (Q : A -> Prop) : Q a -> keeps (ret a) Q.
Proof. intros Ha w Hw. split; [done|]. simpl. by intros ? [= <-]. Qed.

Lemma keeps_bind (m : io A) (k : A -> io B) Q R :
  keeps m Q -> (forall a, Q a -> keeps (k a) R) -> keeps (bind m k) R.
Proof.
  intros Hm Hk w Hw. destruct (Hm w Hw) as [Hw' Hq]. unfold bind.
  destruct (m w) as [[a|] w']; simpl in *; [|split; [done|discriminate]].
  apply Hk; auto.
Qed.

Lemma keeps_try_except (body handler : io A) Q :
  keeps body Q -> keeps handler Q -> keeps (try_except body handler) Q.
Proof.
  intros Hb Hh w Hw. destruct (Hb w Hw) as [Hw' Hq]. unfold try_except.
  destruct (body w) as [[a|] w']; simpl in *; [by split|]. by apply Hh.
Qed.

Lemma keeps_if_supabase (remote local : io A) Q :
  keeps remote Q -> keeps local Q -> keeps (if_supabase remote local) Q.
Proof.
  intros Hr Hl w Hw. unfold if_supabase. destruct (supabase w); auto.
Qed.

Lemma keeps_read (m : world -> io A) Q :
  (forall w0, keeps (m w0) Q) -> keeps (fun w => m w w) Q.
Proof. intros H w Hw. by apply H. Qed.

Lemma keeps_weaken (m : io A) (Q R : A -> Prop) :
  keeps m Q -> (forall a, Q a -> R a) -> keeps m R.
Proof.
  intros Hm HQR w Hw. destruct (Hm w Hw). split; auto.
Qed.

End Keeps.

Lemma counts_nonneg_next_fault w :
  counts_nonneg w -> counts_nonneg (snd (next_fault w)).
Proof. unfold next_fault. by destruct (faults w). Qed.

Lemma keeps_execute {A : Type} (q : client -> A * client) (Q : A -> Prop) :
  (forall db, Forall (fun r => 0 <= row_count r) (inventory_tbl db) ->
     Forall (fun r => 0 <= row_count r) (inventory_tbl (snd (q db))) /\
     Q (fst (q db))) ->
  keeps (execute q) Q.
Proof.
  intros Hq w Hw. unfold execute.
  destruct (supabase w) as [db|] eqn:Hs; [|split; [done|discriminate]].
  pose proof (counts_nonneg_next_fault w Hw) as Hn.
  destruct (Hq db) as [Hdb HQ]; [by apply Hw|].
  unfold next_fault in *. destruct (faults w) as [|[|] rest]; simpl in *;
    destruct (q db) as [a db']; simpl in *;
    try (split; [done|discriminate]).
  all: split; [|by intros ? [= <-]].
  all: split; simpl; [apply Hw|by intros ? [= <-]].
Qed.

Lemma keeps_save_inventory d :
  dict_nonneg d -> keeps (_save_to_file set_inventory_json d) (fun _ => True).
Proof.
  intros Hd w Hw. split; [|done].
  unfold _save_to_file, try_except, json_dump, next_fault.
  destruct (faults w) as [|[|] rest]; simpl; try done.
  all: split; simpl; [by intros ? [= <-]|apply Hw].
Qed.

Lemma keeps_save_sales d :
  keeps (_save_to_file set_sales_json d) (fun _ => True).
Proof.
  intros w Hw. split; [|done].
  unfold _save_to_file, try_except, json_dump, next_fault.
  destruct (faults w) as [|[|] rest]; simpl; try done.
Qed.

Lemma default_inventory_lookup fl f :
  default_inventory fl !! f = if list_contains fl f then Some 0 else None.
Proof.
  unfold default_inventory, list_contains.
  induction fl as [|g fl IH] using rev_ind; [done|].
  rewrite foldl_app, existsb_app. simpl. rewrite orb_false_r.
  destruct (String.eqb_spec f g) as [->|Hne].
  - by rewrite lookup_insert_eq, orb_true_r.
  - rewrite lookup_insert_ne by done. by rewrite orb_false_r.
Qed.

Lemma default_inventory_zero fl :
  map_Forall (fun _ c => c = 0) (default_inventory fl).
Proof.
  intros f c. rewrite default_inventory_lookup.
  destruct (list_contains fl f); congruence.
Qed.

Lemma default_inventory_nonneg fl : dict_nonneg (default_inventory fl).
Proof. intros f c H. apply default_inventory_zero in H. lia. Qed.

Lemma rows_to_dict_nonneg rows :
  Forall (fun r => 0 <= row_count r) rows -> dict_nonneg (rows_to_dict rows).
Proof.
  unfold rows_to_dict.
  induction rows as [|r rows IH] using rev_ind; intros H; [apply map_Forall_empty|].
  rewrite foldl_app. simpl. apply Forall_app in H as [H1 H2].
  apply map_Forall_insert_2; [by inversion H2|by apply IH].
Qed.

Lemma keeps_load_inventory : keeps load_inventory_json dict_nonneg.
Proof.
  intros w Hw.
  unfold load_inventory_json, _load_from_file, bind, try_except, json_load.
  destruct (inventory_json w) eqn:Hj; simpl; (split; [done|]);
    intros ? [= <-]; try apply default_inventory_nonneg. by apply Hw.
Qed.

Lemma keeps_load_sales : keeps load_sales_json (fun _ => True).
Proof.
  intros w Hw.
  unfold load_sales_json, _load_from_file, bind, try_except, json_load.
  destruct (sales_json w); simpl; by split.
Qed.

Lemma keeps_default_inventory :
  keeps (fun w => (Returns (default_inventory (flavors w)), w)) dict_nonneg.
Proof.
  intros w Hw. split; [done|]. simpl. intros ? [= <-].
  apply default_inventory_nonneg.
Qed.

Lemma keeps_get_inventory : keeps get_inventory dict_nonneg.
Proof.
  unfold get_inventory. apply keeps_try_except; [|apply keeps_default_inventory].
  apply keeps_if_supabase; [|apply keeps_load_inventory].
  eapply keeps_bind.
  - apply keeps_execute with (Q := Forall (fun r => 0 <= row_count r)).
    intros db Hdb. by split.
  - intros rows Hrows. apply keeps_ret. by apply rows_to_dict_nonneg.
Qed.

Lemma dict_get_nonneg inv f : dict_nonneg inv -> 0 <= dict_get inv f.
Proof.
  intros H. unfold dict_get. destruct (inv !! f) eqn:E; [|lia]. by apply H in E.
Qed.

Lemma new_count_nonneg inv f n op :
  dict_nonneg inv -> op = "subtract" \/ 0 <= n -> 0 <= new_count inv f n op.
Proof.
  intros Hinv Hg. unfold new_count. pose proof (dict_get_nonneg inv f Hinv).
  destruct Hg as [->|Hn]; simpl; [lia|].
  destruct (String.eqb op "add"); [lia|].
  destruct (String.eqb op "subtract"); lia.
Qed.

Lemma keeps_update_inventory f n op :
  op = "subtract" \/ 0 <= n -> keeps (update_inventory f n op) (fun _ => True).
Proof.
  intros Hg. unfold update_inventory.
  apply keeps_try_except; [|by apply keeps_ret].
  eapply keeps_bind; [apply keeps_get_inventory|]. intros inv Hinv.
  pose proof (new_count_nonneg inv f n op Hinv Hg) as Hc.
  eapply keeps_bind; [|intros; by apply keeps_ret].
  apply keeps_if_supabase.
  - eapply keeps_bind with (Q := fun _ => True).
    + apply keeps_execute. intros db Hdb. by split.
    + intros existing _. destruct existing.
      * apply (keeps_read (fun w0 => execute _)). intros w0.
        apply keeps_execute with (Q := fun _ => True).
        intros db Hdb. split; [|done]. simpl.
        apply Forall_app. split; [done|]. by repeat constructor.
      * apply (keeps_read (fun w0 => execute _)). intros w0.
        apply keeps_execute with (Q := fun _ => True).
        intros db Hdb. split; [|done]. simpl.
        apply Forall_forall. intros r Hr. apply list_elem_of_In, in_map_iff in Hr.
        destruct Hr as (r' & <- & Hr'). rewrite Forall_forall in Hdb.
        destruct (String.eqb (row_flavor r') f); simpl; [done|].
        apply Hdb. by apply list_elem_of_In.
  - apply keeps_save_inventory. by apply map_Forall_insert_2.
Qed.

Lemma keeps_store_sale s : keeps (store_sale s) (fun _ => True).
Proof.
  unfold store_sale. apply keeps_if_supabase.
  - apply keeps_execute. intros db Hdb. by split.
  - eapply keeps_bind; [apply keeps_load_sales|].
    intros sales _. apply keeps_save_sales.
Qed.

Lemma keeps_record_sale f q : keeps (record_sale f q) (fun _ => True).
Proof.
  unfold record_sale. apply keeps_try_except; [|by apply keeps_ret].
  eapply keeps_bind; [apply keeps_get_inventory|]. intros inv _.
  destruct (dict_get inv f <? q); [by apply keeps_ret|].
  eapply keeps_bind with (Q := fun _ => True).
  - apply (keeps_read (fun w0 => store_sale _)). intros w0.
    apply keeps_store_sale.
  - intros _ _. eapply keeps_bind; [|intros; by apply keeps_ret].
    apply keeps_update_inventory. by left.
Qed.

Lemma keeps_remember_flavor f : keeps (remember_flavor f) (fun _ => True).
Proof.
  intros w Hw. split; [|done]. unfold remember_flavor.
  by destruct (list_contains (flavors w) f).
Qed.

Lemma keeps_add_new_flavor name : keeps (add_new_flavor name) (fun _ => True).
Proof.
  unfold add_new_flavor. apply keeps_try_except; [|by apply keeps_ret].
  destruct (String.eqb _ ""); [by apply keeps_ret|].
  eapply keeps_bind; [apply keeps_get_inventory|]. intros inv Hinv.
  destruct (inv !! _); [by apply keeps_ret|].
  eapply keeps_bind with (Q := fun _ => True).
  - apply keeps_if_supabase.
    + apply (keeps_read (fun w0 => execute _)). intros w0.
      apply keeps_execute. intros db Hdb. split; [|done]. simpl.
      apply Forall_app. split; [done|]. by repeat constructor.
    + apply keeps_save_inventory. by apply map_Forall_insert_2.
  - intros _ _. eapply keeps_bind; [apply keeps_remember_flavor|].
    intros; by apply keeps_ret.
Qed.

Lemma keeps_perform c : guarded c -> keeps (perform c) (fun _ => True).
Proof.
  destruct c; simpl; intros Hg.
  - by apply keeps_update_inventory.
  - apply keeps_add_new_flavor.
  - apply keeps_record_sale.
Qed.

Lemma run_snoc cs c w : run (cs ++ [c]) w = snd (perform c (run cs w)).
Proof. unfold run. by rewrite foldl_app. Qed.

Lemma counts_nonneg_run cs w :
  counts_nonneg w -> Forall guarded cs -> counts_nonneg (run cs w).
Proof.
  intros Hw. induction cs as [|c cs IH] using rev_ind; intros Hg; [done|].
  apply Forall_app in Hg as [Hcs Hc]. rewrite run_snoc.
  apply (keeps_perform c); [by inversion Hc|by apply IH].
Qed.

Lemma all_zero_nonneg w : all_zero w -> counts_nonneg w.
Proof.
  intros [Hj Hdb]. split.
  - intros m Hm f c Hf. apply (Hj m Hm) in Hf. lia.
  - intros db Hs. eapply Forall_impl; [by apply Hdb|]. simpl. lia.
Qed.

Lemma dict_get_insert inv f c : dict_get (<[f := c]> inv) f = c.
Proof. unfold dict_get. by rewrite lookup_insert_eq. Qed.

Lemma keeps_rest_faults w w' : keeps_rest w w' -> faults w = [] -> faults w' = [].
Proof. intros (_&_&_&->&_). done. Qed.

Lemma remember_flavor_spec f w :
  exists w', remember_flavor f w = (Returns tt, w') /\ In f (flavors w') /\
    inventory_json w' = inventory_json w /\ sales_json w' = sales_json w /\
    supabase w' = supabase w /\ faults w' = faults w.
Proof.
  unfold remember_flavor, list_contains.
  destruct (existsb (String.eqb f) (flavors w)) eqn:E.
  - eexists; split; [reflexivity|]. split; [|done].
    apply existsb_exists in E as (g & Hg & Heq).
    apply String.eqb_eq in Heq. by subst.
  - eexists; split; [reflexivity|]. split; [|done]. simpl.
    unfold PyStr.sorted. eapply Permutation_in; [apply sort_by_perm|].
    apply in_or_app. right. by left.
Qed.

Lemma add_new_flavor_quiet w name :
  let flavor := PyStr.title (PyStr.strip name) in
  faults w = [] -> flavor <> "" -> snapshot w !! flavor = None ->
  exists w',
    add_new_flavor name w = (Returns true, w') /\
    snapshot w' = <[flavor := 0]> (snapshot w) /\
    In flavor (flavors w') /\ faults w' = [].
Proof.
  intros flavor Hf Hne Hnone. unfold add_new_flavor, try_except. fold flavor.
  apply String.eqb_neq in Hne. rewrite Hne. unfold bind.
  rewrite (get_inventory_quiet w Hf), Hnone. unfold if_supabase.
  destruct (supabase w) as [db|] eqn:Hs.
  - rewrite (execute_quiet _ w db Hf Hs). simpl fst. simpl snd.
    match goal with |- context [remember_flavor flavor ?v] =>
      destruct (remember_flavor_spec flavor v) as (w' & -> & Hin & Hj & Hsj & Hsb & Hfs)
    end.
    eexists; split; [reflexivity|]. unfold snapshot. rewrite Hsb. simpl.
    rewrite Hs, rows_to_dict_snoc. simpl. repeat split; try done. simpl in Hfs. congruence.
  - rewrite (save_quiet _ _ w Hf).
    match goal with |- context [remember_flavor flavor ?v] =>
      destruct (remember_flavor_spec flavor v) as (w' & -> & Hin & Hj & Hsj & Hsb & Hfs)
    end.
    eexists; split; [reflexivity|]. unfold snapshot. rewrite Hsb, Hj. simpl.
    rewrite Hs. repeat split; try done.
    + unfold snapshot. by rewrite Hs.
    + simpl in Hfs. congruence.
Qed.

(** ** The claims *)

(** Claim C1.  When the quantity asked for exceeds the count that
    [get_inventory] reports for the flavor, [record_sale] returns [False]
    and writes nothing: the inventory document, the sales document and
    the remote tables are what they were, and so is the sales log.  This
    holds in both storage modes and whatever the fault schedule. *)
Theorem record_sale_insufficient_stock (w : world) (f : string) (n : Z) :
  stock w f < n ->
  exists w',
    record_sale f n w = (Returns false, w') /\
    same_store w w' /\ sales_log w' = sales_log w.
Proof.
  intros Hlt. unfold stock in Hlt.
  destruct (get_inventory_returns w) as (inv & w1 & Hget & Hsame & _).
  rewrite Hget in Hlt. simpl in Hlt.
  unfold record_sale, try_except, bind. rewrite Hget.
  apply Z.ltb_lt in Hlt. rewrite Hlt. eexists; split; [reflexivity|].
  split; [done|]. unfold sales_log.
  destruct Hsame as (_ & _ & -> & -> & _). done.
Qed.

(** One Vanilla asked of a shop that holds none. *)
Lemma record_sale_insufficient_stock_witness :
  stock shop "Vanilla" < 1 /\
  exists w',
    record_sale "Vanilla" 1 shop = (Returns false, w') /\
    same_store shop w' /\ sales_log w' = sales_log shop.
Proof.
  split; [vm_compute; reflexivity|].
  apply (record_sale_insufficient_stock shop "Vanilla" 1).
  vm_compute. reflexivity.
Defined.

(** Claim C2.  With no failure pending, when the count [c] of the flavor
    satisfies [c >= n > 0], [record_sale] returns [True], the sales log
    gains exactly one record, at its end, with quantity [n], and the
    count of the flavor becomes [c - n]. *)
Theorem record_sale_in_stock (w : world) (f : string) (n : Z) :
  faults w = [] -> 0 < n <= stock w f ->
  exists w',
    record_sale f n w = (Returns true, w') /\
    sales_log w' =
      sales_log w ++ [ {| flavor := f; quantity := n;
                          sale_date := Some (today w);
                          timestamp := Some (now w) |} ] /\
    stock w' f = stock w f - n.
Proof.
  intros Hf [Hpos Hle]. rewrite (stock_quiet w f Hf) in *.
  destruct (record_sale_quiet w f n Hf Hle) as (w' & Hrun & Hlog & Hsnap & Hk).
  exists w'. split; [done|]. split; [done|].
  rewrite (stock_quiet w' f (keeps_rest_faults w w' Hk Hf)), Hsnap.
  rewrite dict_get_insert. lia.
Qed.

(** Twenty Vanilla sold out of fifty. *)
Lemma record_sale_in_stock_witness :
  exists w',
    record_sale "Vanilla" 20 stocked = (Returns true, w') /\
    sales_log w' =
      sales_log stocked ++ [ {| flavor := "Vanilla"; quantity := 20;
                                sale_date := Some (today stocked);
                                timestamp := Some (now stocked) |} ] /\
    stock w' "Vanilla" = stock stocked "Vanilla" - 20.
Proof.
  apply (record_sale_in_stock stocked "Vanilla" 20).
  - reflexivity.
  - vm_compute. split; [reflexivity | discriminate].
Defined.

Lemma shop_all_zero : all_zero shop.
Proof.
  split.
  - intros m [= <-]. apply default_inventory_zero.
  - intros db Hdb. discriminate Hdb.
Qed.

(** Claim C3, as amended.  From a store whose counts are all zero, after
    any run of [update_inventory], [add_new_flavor] and [record_sale]
    calls in which every [update_inventory] that is not a subtraction is
    given a non-negative count, every stored count and every count
    [get_inventory] returns is non-negative.  The run may meet any
    faults. *)
Theorem counts_never_negative (cs : list call) (w : world) :
  all_zero w -> Forall guarded cs ->
  counts_nonneg (run cs w) /\
  forall inv w', get_inventory (run cs w) = (Returns inv, w') ->
    forall f c, inv !! f = Some c -> 0 <= c.
Proof.
  intros Hz Hg.
  pose proof (counts_nonneg_run cs w (all_zero_nonneg w Hz) Hg) as Hn.
  split; [done|]. intros inv w' Hget f c Hf.
  destruct (keeps_get_inventory (run cs w) Hn) as [_ Hq].
  rewrite Hget in Hq. by apply (Hq inv eq_refl f c).
Qed.

(** A run that adds, sells, creates a flavor, sets, over-subtracts and sells a negative quantity. *)
Lemma counts_never_negative_witness :
  let cs := [ UpdateInventory "Vanilla" 50 "add"; RecordSale "Vanilla" 20;
              AddNewFlavor " rum raisin"; UpdateInventory "Kulfi" 3 "set";
              UpdateInventory "Vanilla" 80 "subtract";
              RecordSale "Kulfi" (-2) ] in
  counts_nonneg (run cs shop) /\
  forall inv w', get_inventory (run cs shop) = (Returns inv, w') ->
    forall f c, inv !! f = Some c -> 0 <= c.
Proof.
  intros cs. apply (counts_never_negative cs shop).
  - exact shop_all_zero.
  - unfold cs.
    repeat (apply List.Forall_cons;
            [simpl; first [exact I | left; reflexivity | right; discriminate]|]).
    apply List.Forall_nil.
Defined.

(** Claim C3, as stated, fails: setting a count to [-5] stores [-5]. *)
Lemma counts_can_go_negative :
  ~ (forall (cs : list call) (w : world),
       all_zero w ->
       forall inv w', get_inventory (run cs w) = (Returns inv, w') ->
         forall f c, inv !! f = Some c -> 0 <= c).
Proof.
  intros H.
  pose (w := run [UpdateInventory "Vanilla" (-5) "set"] shop).
  specialize (H [UpdateInventory "Vanilla" (-5) "set"] shop shop_all_zero
                (snapshot w) w).
  assert (Hget : get_inventory w = (Returns (snapshot w), w))
    by (apply get_inventory_quiet; reflexivity).
  specialize (H Hget "Vanilla" (-5)).
  assert (Hl : snapshot w !! "Vanilla" = Some (-5)) by (vm_compute; reflexivity).
  specialize (H Hl). lia.
Qed.







(** Claim C7.  When reading the inventory fails (the remote query
    raises, or the local document does not parse), [get_inventory] does
    not raise: it returns the mapping that sends every flavor of
    [self.flavors], and nothing else, to [0]. *)
Theorem get_inventory_degrades_to_default (w : world) :
  backend_failure w ->
  exists w',
    get_inventory w = (Returns (default_inventory (flavors w)), w') /\
    same_store w w' /\
    forall f, default_inventory (flavors w) !! f
              = if list_contains (flavors w) f then Some 0 else None.
Proof.
  intros Hfail. unfold backend_failure in Hfail.
  unfold get_inventory, try_except, if_supabase.
  destruct (supabase w) as [db|] eqn:Hs.
  - destruct Hfail as [rest Hrest]. unfold bind, execute, next_fault.
    rewrite Hs, Hrest. eexists; split; [reflexivity|].
    split; [by repeat split|]. apply default_inventory_lookup.
  - unfold load_inventory_json, _load_from_file, bind, try_except, json_load.
    rewrite Hfail. eexists; split; [reflexivity|].
    split; [apply same_store_refl|]. apply default_inventory_lookup.
Qed.

(** A document that does not parse, and a remote query that raises. *)
Lemma get_inventory_degrades_to_default_witness :
  (exists w',
     get_inventory garbled_shop
       = (Returns (default_inventory (flavors garbled_shop)), w') /\
     same_store garbled_shop w' /\
     forall f, default_inventory (flavors garbled_shop) !! f
               = if list_contains (flavors garbled_shop) f then Some 0 else None) /\
  (exists w',
     get_inventory offline_cloud
       = (Returns (default_inventory (flavors offline_cloud)), w') /\
     same_store offline_cloud w' /\
     forall f, default_inventory (flavors offline_cloud) !! f
               = if list_contains (flavors offline_cloud) f then Some 0 else None).
Proof.
  split.
  - apply (get_inventory_degrades_to_default garbled_shop). reflexivity.
  - apply (get_inventory_degrades_to_default offline_cloud).
    exists []. reflexivity.
Defined.

Lemma sorted_descending (l : list sale) :
  StronglySorted newer_or_equal (PyStr.sorted timestamp_key true l).
Proof.
  unfold PyStr.sorted.
  apply (sorted_rev (fun a b => PyStr.key_le timestamp_key a b = true)).
  apply sort_by_sorted.
Qed.

Lemma sorted_permutation (l : list sale) :
  Permutation l (PyStr.sorted timestamp_key true l).
Proof.
  unfold PyStr.sorted. rewrite <- Permutation_rev, <- sort_by_perm.
  apply Permutation_rev.
Qed.

(** Claim C8, as amended.  [get_sales_data] returns the same result for
    every value of [days].  In local storage mode the result is a
    permutation of the sales log, ordered newest first by timestamp; a
    record without a timestamp sorts as the empty string and therefore
    comes last: every record after it has the empty string as its key. *)
Theorem get_sales_data_ignores_days_and_sorts
  (order : list sale -> list sale) (w : world) (d1 d2 : Z) :
  get_sales_data order d1 w = get_sales_data order d2 w /\
  (supabase w = None ->
   exists result,
     get_sales_data order d1 w = (Returns result, w) /\
     Permutation (sales_log w) result /\
     StronglySorted newer_or_equal result /\
     forall before x after,
       result = before ++ x :: after -> timestamp x = None ->
       timestamp_key x = "" /\
       Forall (fun y => timestamp_key y = "") after).
Proof.
  split; [reflexivity|]. intros Hs.
  exists (PyStr.sorted timestamp_key true (sales_log w)).
  split; [|split; [apply sorted_permutation | split; [apply sorted_descending|]]].
  - unfold get_sales_data, try_except, if_supabase, sales_log. rewrite Hs.
    unfold bind, load_sales_json, _load_from_file, bind, try_except, json_load.
    by destruct (sales_json w).
  - intros before x after Heq Hx.
    assert (Hk : timestamp_key x = "") by (unfold timestamp_key; by rewrite Hx).
    split; [done|].
    pose proof (sorted_descending (sales_log w)) as Hsorted.
    rewrite Heq in Hsorted.
    apply StronglySorted_app in Hsorted as (_ & _ & Htail).
    apply StronglySorted_cons in Htail as [Hall _].
    eapply Forall_impl; [exact Hall|]. intros y Hy.
    unfold newer_or_equal in Hy. rewrite Hk in Hy.
    by apply string_leb_empty_r.
Qed.

(** The ledger read with two values of [days]. *)
Lemma get_sales_data_ignores_days_and_sorts_witness :
  get_sales_data (fun l => l) 30 ledger = get_sales_data (fun l => l) 7 ledger /\
  exists result,
    get_sales_data (fun l => l) 30 ledger = (Returns result, ledger) /\
    Permutation (sales_log ledger) result /\
    StronglySorted newer_or_equal result /\
    forall before x after,
      result = before ++ x :: after -> timestamp x = None ->
      timestamp_key x = "" /\
      Forall (fun y => timestamp_key y = "") after.
Proof.
  destruct (get_sales_data_ignores_days_and_sorts (fun l => l) ledger 30 7)
    as [Hsame Hlocal].
  split; [exact Hsame|]. apply Hlocal. reflexivity.
Defined.

(** Claim C8, as stated, fails: in [ledger] the record without a
    timestamp is returned after a record that has one. *)
Lemma undated_sale_is_not_first :
  ~ (forall (order : list sale -> list sale) (w : world) (days : Z)
            (result before after : list sale) (x : sale),
       supabase w = None ->
       get_sales_data order days w = (Returns result, w) ->
       result = before ++ x :: after -> timestamp x = None ->
       Forall (fun y => timestamp y = None) before).
Proof.
  intros H.
  specialize (H (fun l => l) ledger 30 [dated; undated] [dated] [] undated).
  assert (Hbad : Forall (fun y => timestamp y = None) [dated]).
  { apply H; reflexivity. }
  inversion Hbad as [|? ? Hd _]. discriminate Hd.
Qed.

(** Claim C9.  [record_sale] discards the result of [update_inventory]:
    when the stock check passes, the sale record is written and
    [update_inventory] then returns [False], [record_sale] still returns
    [True]. *)
Theorem record_sale_ignores_update_result
  (w w1 w2 w3 : world) (f : string) (q : Z) (inv : gmap string Z) :
  get_inventory w = (Returns inv, w1) ->
  (dict_get inv f <? q) = false ->
  store_sale (sale_data f q w1) w1 = (Returns tt, w2) ->
  update_inventory f q "subtract" w2 = (Returns false, w3) ->
  record_sale f q w = (Returns true, w3).
Proof.
  intros Hget Hcheck Hsale Hupd. unfold record_sale, try_except, bind.
  rewrite Hget, Hcheck, Hsale, Hupd. reflexivity.
Qed.

(** On [flaky_cloud] the sale of two Vanilla is logged and reported as a success while the count stays at 5. *)
Lemma record_sale_ignores_update_result_witness :
  exists w3,
    record_sale "Vanilla" 2 flaky_cloud = (Returns true, w3) /\
    snapshot w3 !! "Vanilla" = Some 5 /\
    length (sales_log w3) = 1%nat.
Proof.
  eexists. split.
  - eapply (record_sale_ignores_update_result flaky_cloud _ _ _ "Vanilla" 2).
    + vm_compute. reflexivity.
    + vm_compute. reflexivity.
    + vm_compute. reflexivity.
    + vm_compute. reflexivity.
  - split; vm_compute; reflexivity.
Defined.



(** * Beyond the claims *)

(** ** Normalisation of flavor names *)

Ltac each_ascii c :=
  destruct c as [[] [] [] [] [] [] [] []]; try reflexivity; try discriminate.





Lemma is_cased_lower c : PyStr.is_cased (PyStr.lower c) = PyStr.is_cased c.
Proof. each_ascii c. Qed.


Lemma lower_lower c : PyStr.lower (PyStr.lower c) = PyStr.lower c.
Proof. each_ascii c. Qed.

Lemma upper_lower c : PyStr.upper (PyStr.lower c) = PyStr.upper c.
Proof. each_ascii c. Qed.



Lemma title_from_empty b s : PyStr.title_from b s = "" <-> s = "".
Proof. destruct s; simpl; split; congruence. Qed.


Lemma title_from_lowered b s :
  PyStr.title_from b (lowered s) = PyStr.title_from b s.
Proof.
  revert b. induction s as [|c s IH]; intros b; simpl; [done|].
  rewrite is_cased_lower, IH. f_equal.
  destruct b; [apply lower_lower | apply upper_lower].
Qed.










Lemma rstrip_blank s : blank s = true -> PyStr.rstrip s = "".
Proof.
  induction s as [|c s IH]; simpl; [done|].
  intros [Hc Hs]%andb_prop. by rewrite (IH Hs), Hc.
Qed.

Lemma lstrip_blank s : blank s = true -> PyStr.lstrip s = "".
Proof.
  induction s as [|c s IH]; simpl; [done|].
  intros [Hc Hs]%andb_prop. rewrite Hc. by apply IH.
Qed.

Lemma rstrip_empty_blank s : PyStr.rstrip s = "" -> blank s = true.
Proof.
  induction s as [|c s IH]; simpl; [done|].
  destruct (PyStr.rstrip s); [|discriminate].
  destruct (PyStr.isspace c); [|discriminate]. intros _. by rewrite IH.
Qed.

Lemma lstrip_blank_iff s : blank (PyStr.lstrip s) = blank s.
Proof.
  induction s as [|c s IH]; simpl; [done|].
  destruct (PyStr.isspace c) eqn:Hc; simpl; [done|]. by rewrite Hc.
Qed.

Lemma strip_empty_iff s : PyStr.strip s = "" <-> blank s = true.
Proof.
  unfold PyStr.strip. split.
  - intros H%rstrip_empty_blank. by rewrite lstrip_blank_iff in H.
  - intros H. apply rstrip_blank. by rewrite lstrip_blank_iff.
Qed.

(** ** Flavor names through [add_new_flavor] *)


(** A name made of white space only (the empty name included) is
    refused before the store is read: the method returns [False], the
    route flashes its error, and the world is untouched. *)
Theorem blank_flavor_name_refused (name : string) (w : world) :
  blank name = true ->
  add_new_flavor name w = (Returns false, w) /\
  Routes.manage_flavors (Some name) w
  = (Returns {| Routes.message := Routes.InvalidFlavorName;
                Routes.category := "error" |}, w).
Proof.
  intros Hb. apply strip_empty_iff in Hb.
  unfold Routes.manage_flavors, add_new_flavor, try_except. by rewrite Hb.
Qed.

Lemma blank_flavor_name_refused_witness :
  add_new_flavor "   " shop = (Returns false, shop) /\
  Routes.manage_flavors (Some "   ") shop
  = (Returns {| Routes.message := Routes.InvalidFlavorName;
                Routes.category := "error" |}, shop).
Proof. apply (blank_flavor_name_refused "   " shop). reflexivity. Defined.

Lemma flavor_name_same (n1 n2 : string) :
  lowered (PyStr.strip n1) = lowered (PyStr.strip n2) ->
  PyStr.title (PyStr.strip n1) = PyStr.title (PyStr.strip n2).
Proof.
  intros H. unfold PyStr.title.
  rewrite <- (title_from_lowered false (PyStr.strip n1)), H.
  apply title_from_lowered.
Qed.

(** Names that differ only in the case of their letters and in outer
    white space are normalised to the same flavor. *)
Theorem flavor_name_ignores_case (n1 n2 : string) :
  lowered (PyStr.strip n1) = lowered (PyStr.strip n2) ->
  PyStr.title (PyStr.strip n1) = PyStr.title (PyStr.strip n2).
Proof.
  apply flavor_name_same.
Qed.

Lemma flavor_name_ignores_case_witness :
  PyStr.title (PyStr.strip "  rUM raisin") = PyStr.title (PyStr.strip "Rum RAISIN ").
Proof.
  apply (flavor_name_ignores_case "  rUM raisin" "Rum RAISIN "). reflexivity.
Defined.

Lemma add_new_flavor_true_inv w name w' :
  faults w = [] -> add_new_flavor name w = (Returns true, w') ->
  PyStr.title (PyStr.strip name) <> "" /\
  snapshot w !! PyStr.title (PyStr.strip name) = None.
Proof.
  intros Hf. unfold add_new_flavor, try_except.
  destruct (String.eqb_spec (PyStr.title (PyStr.strip name)) "") as [He|Hne];
    [discriminate|].
  unfold bind. rewrite (get_inventory_quiet w Hf).
  destruct (snapshot w !! _) eqn:Hl; [discriminate|]. done.
Qed.

Lemma add_new_flavor_existing w name (c : Z) :
  faults w = [] ->
  snapshot w !! PyStr.title (PyStr.strip name) = Some c ->
  add_new_flavor name w = (Returns false, w).
Proof.
  intros Hf Hl. unfold add_new_flavor, try_except.
  destruct (String.eqb _ ""); [done|].
  unfold bind. by rewrite (get_inventory_quiet w Hf), Hl.
Qed.

(** Once a flavor has been added, adding it again under any spelling
    that differs only in letter case or outer white space returns
    [False] and changes nothing. *)
Theorem add_new_flavor_twice (w w' : world) (n1 n2 : string) :
  faults w = [] ->
  add_new_flavor n1 w = (Returns true, w') ->
  lowered (PyStr.strip n2) = lowered (PyStr.strip n1) ->
  add_new_flavor n2 w' = (Returns false, w').
Proof.
  intros Hf Hadd Hsame.
  destruct (add_new_flavor_true_inv w n1 w' Hf Hadd) as [Hne Hnone].
  destruct (add_new_flavor_quiet w n1 Hf Hne Hnone)
    as (w1 & Hrun & Hsnap & _ & Hf1).
  rewrite Hadd in Hrun. injection Hrun as <-.
  apply (add_new_flavor_existing w' n2 0 Hf1).
  rewrite (flavor_name_same n2 n1 Hsame), Hsnap. apply lookup_insert_eq.
Qed.

Lemma add_new_flavor_twice_witness :
  add_new_flavor "RUM raisin  " (snd (add_new_flavor " rum raisin" shop))
  = (Returns false, snd (add_new_flavor " rum raisin" shop)).
Proof.
  apply (add_new_flavor_twice shop _ " rum raisin" "RUM raisin  ");
    reflexivity.
Defined.

(** ** Start-up *)

Lemma save_any {A} (wr : file A -> world -> world) (d : A) w :
  exists w', _save_to_file wr d w = (Returns tt, w') /\
    (w' = snd (next_fault w) \/ w' = wr (Holds d) (snd (next_fault w))).
Proof.
  unfold _save_to_file, try_except, json_dump.
  destruct (next_fault w) as [[|] w1]; eexists; (split; [reflexivity|]); auto.
Qed.

Lemma init_keeps (w : world) :
  (inventory_json w <> Absent ->
   inventory_json (snd (init w)) = inventory_json w) /\
  (sales_json w <> Absent -> sales_json (snd (init w)) = sales_json w) /\
  supabase (snd (init w)) = supabase w /\
  flavors (snd (init w)) = seed_flavors.
Proof.
  unfold init, _init_local_storage, bind. simpl.
  destruct (inventory_json w) eqn:Hi; simpl.
  - destruct (save_any set_inventory_json (default_inventory seed_flavors)
                (set_flavors seed_flavors w)) as (w1 & -> & Hw1).
    assert (Hs1 : sales_json w1 = sales_json w /\ supabase w1 = supabase w /\
                  flavors w1 = seed_flavors).
    { unfold next_fault in Hw1. simpl in Hw1.
      destruct (faults w); destruct Hw1 as [->| ->]; done. }
    destruct Hs1 as (Hs1 & Hb1 & Hf1).
    destruct (sales_json w1) eqn:Hs; simpl.
    + destruct (save_any set_sales_json [] w1) as (w2 & -> & Hw2). simpl.
      unfold next_fault in Hw2.
      destruct (faults w1); destruct Hw2 as [->| ->]; simpl;
        repeat split; try done; congruence.
    + repeat split; try done; congruence.
    + repeat split; try done; congruence.
  - destruct (sales_json w) eqn:Hs; simpl.
    + destruct (save_any set_sales_json [] (set_flavors seed_flavors w))
        as (w2 & -> & Hw2). simpl.
      unfold next_fault in Hw2. simpl in Hw2.
      destruct (faults w); destruct Hw2 as [->| ->]; simpl;
        repeat split; try done; congruence.
    + rewrite Hs. simpl. repeat split; try done; congruence.
    + rewrite Hs. simpl. repeat split; try done; congruence.
  - destruct (sales_json w) eqn:Hs; simpl.
    + destruct (save_any set_sales_json [] (set_flavors seed_flavors w))
        as (w2 & -> & Hw2). simpl.
      unfold next_fault in Hw2. simpl in Hw2.
      destruct (faults w); destruct Hw2 as [->| ->]; simpl;
        repeat split; try done; congruence.
    + rewrite Hs. simpl. repeat split; try done; congruence.
    + rewrite Hs. simpl. repeat split; try done; congruence.
Qed.

(** [__init__] never overwrites a document that is already there, be it
    unparseable, and never touches the remote tables; it resets
    [self.flavors] to the seed list. *)
Theorem init_keeps_existing_documents (w : world) :
  (inventory_json w <> Absent ->
   inventory_json (snd (init w)) = inventory_json w) /\
  (sales_json w <> Absent -> sales_json (snd (init w)) = sales_json w) /\
  supabase (snd (init w)) = supabase w /\
  flavors (snd (init w)) = seed_flavors.
Proof. apply init_keeps. Qed.

Lemma init_keeps_existing_documents_witness :
  inventory_json (snd (init garbled_shop)) = inventory_json garbled_shop /\
  sales_json (snd (init ledger)) = sales_json ledger.
Proof.
  split.
  - apply (init_keeps_existing_documents garbled_shop). discriminate.
  - apply (init_keeps_existing_documents ledger). discriminate.
Defined.

Lemma init_quiet w :
  faults w = [] ->
  faults (snd (init w)) = [] /\
  inventory_json (snd (init w))
  = match inventory_json w with
    | Absent => Holds (default_inventory seed_flavors)
    | d => d
    end /\
  sales_json (snd (init w))
  = match sales_json w with Absent => Holds [] | d => d end.
Proof.
  intros Hf. unfold init, _init_local_storage, bind. simpl.
  destruct (inventory_json w) eqn:Hi; simpl.
  - rewrite save_quiet by done. simpl.
    destruct (sales_json w) eqn:Hs; simpl; [rewrite save_quiet by done|..];
      simpl; rewrite ?Hs, ?Hi; done.
  - destruct (sales_json w) eqn:Hs; simpl; [rewrite save_quiet by done|..];
      simpl; rewrite ?Hs, ?Hi; done.
  - destruct (sales_json w) eqn:Hs; simpl; [rewrite save_quiet by done|..];
      simpl; rewrite ?Hs, ?Hi; done.
Qed.

(** On a data directory without documents, in local mode and with no
    write failing, [__init__] leaves an inventory that maps exactly the
    twelve seed flavors to [0] and an empty sales log. *)
Theorem init_creates_default_documents (w : world) :
  faults w = [] -> supabase w = None ->
  inventory_json w = Absent -> sales_json w = Absent ->
  let w' := snd (init w) in
  snapshot w' = default_inventory seed_flavors /\
  sales_log w' = [] /\
  dom (snapshot w') = list_to_set seed_flavors /\
  forall f, stock w' f = 0.
Proof.
  intros Hf Hs Hi Hsj w'.
  destruct (init_quiet w Hf) as (Hf' & Hi' & Hsj').
  destruct (init_keeps w) as (_ & _ & Hs' & _).
  fold w' in Hf', Hi', Hsj', Hs'. rewrite Hi in Hi'. rewrite Hsj in Hsj'.
  assert (Hsnap : snapshot w' = default_inventory seed_flavors).
  { unfold snapshot. by rewrite Hs', Hs, Hi'. }
  split; [done|]. split; [unfold sales_log; by rewrite Hs', Hs, Hsj'|].
  split.
  - rewrite Hsnap. apply set_eq. intros f.
    rewrite elem_of_dom, default_inventory_lookup, elem_of_list_to_set.
    unfold list_contains. destruct (existsb _ _) eqn:E.
    + split; [intros _|by eauto].
      apply existsb_exists in E as (g & Hg & ->%String.eqb_eq).
      by apply list_elem_of_In.
    + split; [by intros [? ?]|]. intros Hin%list_elem_of_In.
      assert (existsb (String.eqb f) seed_flavors = true); [|congruence].
      apply existsb_exists. exists f. split; [done | apply String.eqb_refl].
  - intros f. rewrite (stock_quiet w' f Hf'), Hsnap. unfold dict_get.
    rewrite default_inventory_lookup. by destruct (list_contains _ _).
Qed.

Lemma init_creates_default_documents_witness :
  snapshot shop = default_inventory seed_flavors /\
  sales_log shop = [] /\
  dom (snapshot shop) = list_to_set seed_flavors /\
  forall f, stock shop f = 0.
Proof.
  apply (init_creates_default_documents fresh); reflexivity.
Defined.

(** ** The list of flavors *)

Lemma sorted_set_In l f : In f (sorted_set l) <-> In f l.
Proof.
  unfold sorted_set, PyStr.sorted.
  rewrite <- (Permutation_in' (eq_refl f) (sort_by_perm (fun x => x) _)).
  rewrite <- !list_elem_of_In, elem_of_elements, elem_of_list_to_set. done.
Qed.

Lemma sorted_set_NoDup l : NoDup (sorted_set l).
Proof.
  unfold sorted_set, PyStr.sorted.
  rewrite <- (sort_by_perm (fun x => x)). apply NoDup_elements.
Qed.

Lemma sorted_set_sorted l :
  StronglySorted (fun a b => String.leb a b = true) (sorted_set l).
Proof. apply (sort_by_sorted (fun x : string => x)). Qed.

Lemma string_leb_antisymm :
  AntiSymm eq (fun a b : string => String.leb a b = true).
Proof. intros a b. apply String.leb_antisym. Qed.

(** Whatever order [list(set(...))] yields, the sort gives the same
    list. *)
Lemma sorted_set_any_order (l listing : list string) :
  Permutation listing (elements (list_to_set l : gset string)) ->
  PyStr.sorted (fun x => x) false listing = sorted_set l.
Proof.
  intros Hp.
  apply (StronglySorted_unique (fun a b : string => String.leb a b = true)
           (AntiSymm0 := string_leb_antisymm)).
  - apply (sort_by_sorted (fun x : string => x)).
  - apply sorted_set_sorted.
  - unfold sorted_set, PyStr.sorted.
    rewrite <- !(sort_by_perm (fun x => x)). done.
Qed.

Lemma rows_to_dict_keys rows f :
  In f (List.map row_flavor rows) <-> is_Some (rows_to_dict rows !! f).
Proof.
  induction rows as [|r rows IH] using rev_ind.
  - simpl. unfold rows_to_dict. simpl. rewrite lookup_empty.
    split; [done | by intros [? ?]].
  - rewrite map_app, in_app_iff, rows_to_dict_snoc, IH. simpl.
    destruct (decide (row_flavor r = f)) as [->|Hne].
    + rewrite lookup_insert_eq. split; [by eauto | auto].
    + rewrite lookup_insert_ne by done. split; [|auto].
      intros [?|[?|[]]]; done.
Qed.

Lemma dict_keys (inv : gmap string Z) f :
  In f (List.map fst (map_to_list inv)) <-> is_Some (inv !! f).
Proof.
  rewrite in_map_iff. split.
  - intros ([g c] & <- & Hin). apply list_elem_of_In, elem_of_map_to_list in Hin.
    by eauto.
  - intros [c Hc]. exists (f, c). split; [done|].
    by apply list_elem_of_In, elem_of_map_to_list.
Qed.

Lemma get_all_flavors_quiet (w : world) :
  faults w = [] ->
  exists l,
    get_all_flavors w = (Returns l, w) /\
    (forall f, In f l <-> In f (flavors w) \/ is_Some (snapshot w !! f)) /\
    NoDup l /\
    StronglySorted (fun a b => String.leb a b = true) l.
Proof.
  intros Hf. unfold get_all_flavors, try_except, if_supabase, snapshot.
  destruct (supabase w) as [db|] eqn:Hs.
  - unfold bind. rewrite (execute_quiet _ w db Hf Hs). simpl.
    rewrite (set_supabase_same w db Hs).
    eexists; split; [reflexivity|].
    split; [|split; [apply sorted_set_NoDup | apply sorted_set_sorted]].
    intros f. by rewrite sorted_set_In, in_app_iff, rows_to_dict_keys.
  - unfold bind, load_inventory_json, _load_from_file, bind, try_except,
      json_load.
    destruct (inventory_json w); simpl; (eexists; split; [reflexivity|]);
      (split; [|split; [apply sorted_set_NoDup | apply sorted_set_sorted]]);
      intros f; by rewrite sorted_set_In, in_app_iff, dict_keys.
Qed.

(** When the read does not fail, [get_all_flavors] returns, in ascending
    order and without repetition, exactly the names of [self.flavors]
    together with the flavors the backend holds; it writes nothing. *)
Theorem get_all_flavors_sorted_union (w : world) :
  faults w = [] ->
  exists l,
    get_all_flavors w = (Returns l, w) /\
    (forall f, In f l <-> In f (flavors w) \/ is_Some (snapshot w !! f)) /\
    NoDup l /\
    StronglySorted (fun a b => String.leb a b = true) l.
Proof. apply get_all_flavors_quiet. Qed.

Lemma get_all_flavors_sorted_union_witness :
  exists l,
    get_all_flavors cloud = (Returns l, cloud) /\
    (forall f, In f l <-> In f (flavors cloud) \/ is_Some (snapshot cloud !! f)) /\
    NoDup l /\
    StronglySorted (fun a b => String.leb a b = true) l.
Proof. apply (get_all_flavors_sorted_union cloud). reflexivity. Defined.

(** When the remote query raises, [get_all_flavors] returns
    [self.flavors] as it stands (neither sorted nor completed with the
    flavors of the table) and nothing is written. *)
Theorem get_all_flavors_fallback (w : world) (db : client) (rest : list bool) :
  supabase w = Some db -> faults w = true :: rest ->
  get_all_flavors w = (Returns (flavors w), set_faults rest w).
Proof.
  intros Hs Hf. unfold get_all_flavors, try_except, if_supabase, bind, execute,
    next_fault.
  by rewrite Hs, Hf.
Qed.

Lemma get_all_flavors_fallback_witness :
  get_all_flavors offline_cloud
  = (Returns (flavors offline_cloud), set_faults [] offline_cloud).
Proof.
  eapply (get_all_flavors_fallback offline_cloud); reflexivity.
Defined.

Lemma add_new_flavor_stored w name w' :
  faults w = [] -> add_new_flavor name w = (Returns true, w') ->
  is_Some (supabase w') \/ exists m, inventory_json w' = Holds m.
Proof.
  intros Hf. unfold add_new_flavor, try_except.
  destruct (String.eqb _ ""); [discriminate|].
  unfold bind. rewrite (get_inventory_quiet w Hf).
  destruct (snapshot w !! _); [discriminate|]. unfold if_supabase.
  destruct (supabase w) as [db|] eqn:Hs.
  - rewrite (execute_quiet _ w db Hf Hs). simpl fst. simpl snd.
    match goal with |- context [remember_flavor ?f ?v] =>
      destruct (remember_flavor_spec f v) as (w2 & -> & _ & _ & _ & Hsb & _)
    end.
    intros [= <-]. left. rewrite Hsb. simpl. by eauto.
  - rewrite (save_quiet _ _ w Hf).
    match goal with |- context [remember_flavor ?f ?v] =>
      destruct (remember_flavor_spec f v) as (w2 & -> & _ & Hj & _ & _ & _)
    end.
    intros [= <-]. right. rewrite Hj. simpl. by eauto.
Qed.

(** A flavor added with [add_new_flavor] is still listed after a
    restart, although [__init__] resets [self.flavors] to the seed list:
    [get_all_flavors] finds it among the keys of the stored inventory. *)
Theorem added_flavor_survives_restart (w w1 : world) (name : string) :
  faults w = [] ->
  add_new_flavor name w = (Returns true, w1) ->
  exists l,
    get_all_flavors (snd (init w1)) = (Returns l, snd (init w1)) /\
    In (PyStr.title (PyStr.strip name)) l.
Proof.
  intros Hf Hadd.
  destruct (add_new_flavor_true_inv w name w1 Hf Hadd) as [Hne Hnone].
  destruct (add_new_flavor_quiet w name Hf Hne Hnone)
    as (w1' & Hrun & Hsnap & _ & Hf1).
  rewrite Hadd in Hrun. injection Hrun as <-.
  destruct (init_quiet w1 Hf1) as (Hf2 & Hi2 & _).
  destruct (init_keeps w1) as (_ & _ & Hs2 & _).
  destruct (get_all_flavors_quiet (snd (init w1)) Hf2) as (l & Hget & Hin & _).
  exists l. split; [done|]. apply Hin. right.
  assert (Hl : snapshot w1 !! PyStr.title (PyStr.strip name) = Some 0)
    by (rewrite Hsnap; apply lookup_insert_eq).
  assert (Hsame : snapshot (snd (init w1)) = snapshot w1).
  { unfold snapshot. rewrite Hs2, Hi2.
    destruct (add_new_flavor_stored w name w1 Hf Hadd) as [[db Hdb]|[m Hm]].
    - by rewrite Hdb.
    - by rewrite Hm. }
  rewrite Hsame, Hl. by eauto.
Qed.

Lemma added_flavor_survives_restart_witness :
  exists l,
    get_all_flavors (snd (init (snd (add_new_flavor " rum raisin" shop))))
    = (Returns l, snd (init (snd (add_new_flavor " rum raisin" shop)))) /\
    In (PyStr.title (PyStr.strip " rum raisin")) l.
Proof.
  apply (added_flavor_survives_restart shop _ " rum raisin"); reflexivity.
Defined.

(** ** Low stock and the dashboard *)

Lemma in_map_to_list (inv : gmap string Z) f c :
  In (f, c) (map_to_list inv) <-> inv !! f = Some c.
Proof. rewrite <- list_elem_of_In. apply elem_of_map_to_list. Qed.

Lemma NoDup_map_filter {A B : Type} (g : A -> B) (p : A -> bool) (l : list A) :
  NoDup (List.map g l) -> NoDup (List.map g (List.filter p l)).
Proof.
  induction l as [|x l IH]; simpl; [done|].
  intros [Hx Hl]%NoDup_cons. destruct (p x); simpl; [|by apply IH].
  apply NoDup_cons. split; [|by apply IH].
  intros Hin. apply Hx. apply list_elem_of_In, in_map_iff in Hin.
  destruct Hin as (y & Hy & Hin%filter_In). apply list_elem_of_In, in_map_iff.
  exists y. tauto.
Qed.

(** [get_low_stock_items] lists, once each, exactly the flavors whose
    count in the inventory that [get_inventory] returns is below the
    threshold; a count of zero or less is listed too. *)
Theorem get_low_stock_items_exact
  (w w1 : world) (inv : gmap string Z) (threshold : Z) :
  get_inventory w = (Returns inv, w1) ->
  exists items,
    get_low_stock_items threshold w = (Returns items, w1) /\
    (forall f c, In (f, c) items <-> inv !! f = Some c /\ c < threshold) /\
    NoDup (List.map fst items).
Proof.
  intros Hget. unfold get_low_stock_items, bind. rewrite Hget.
  eexists; split; [reflexivity|]. split.
  - intros f c. rewrite filter_In, in_map_to_list. simpl.
    by rewrite Z.ltb_lt.
  - apply NoDup_map_filter. apply (NoDup_fst_map_to_list inv).
Qed.

Lemma get_low_stock_items_exact_witness :
  exists items,
    get_low_stock_items 10 pantry = (Returns items, pantry) /\
    (forall f c, In (f, c) items <-> snapshot pantry !! f = Some c /\ c < 10) /\
    NoDup (List.map fst items).
Proof.
  apply (get_low_stock_items_exact pantry pantry (snapshot pantry) 10).
  reflexivity.
Defined.

Lemma filter_filter_and {A : Type} (p q : A -> bool) (l : list A) :
  List.filter (fun x => p x && q x) l = List.filter p (List.filter q l).
Proof.
  induction l as [|x l IH]; simpl; [done|].
  destruct (q x) eqn:Eq, (p x) eqn:Ep; simpl; rewrite ?Ep, ?IH; done.
Qed.

(** The low-stock list of the dashboard is [get_low_stock_items(10)]
    without the flavors whose count is zero or less: a sold-out flavor
    is low on stock for the store and absent from the dashboard's
    warning. *)
Theorem dashboard_low_stock_excludes_sold_out (w : world) :
  exists page items w1,
    Routes.dashboard w = (Returns page, w1) /\
    get_low_stock_items 10 w = (Returns items, w1) /\
    Routes.low_stock page = List.filter (fun item => 0 <? snd item) items /\
    forall f c, In (f, c) items -> c <= 0 -> ~ In (f, c) (Routes.low_stock page).
Proof.
  destruct (get_inventory_returns w) as (inv & w1 & Hget & _).
  unfold Routes.dashboard, get_low_stock_items, bind. rewrite Hget.
  do 3 eexists. split; [reflexivity|]. split; [reflexivity|]. simpl.
  split; [apply filter_filter_and|].
  intros f c _ Hc [_ Hpos]%filter_In. simpl in Hpos.
  apply andb_prop in Hpos as [Hpos _]. apply Z.ltb_lt in Hpos. lia.
Qed.

Lemma sum_nonneg (l : list Z) :
  Forall (fun c => 0 <= c) l ->
  Z.of_nat (length (List.filter (fun c => 0 <? c) l)) <= foldr Z.add 0 l /\
  (foldr Z.add 0 l = 0 <-> List.filter (fun c => 0 <? c) l = []).
Proof.
  induction 1 as [|c l Hc Hl IH]; simpl; [done|].
  destruct IH as [IH1 IH2]. destruct (Z.ltb_spec 0 c); simpl.
  - split; [lia|]. split; [lia | discriminate].
  - assert (c = 0) as -> by lia. split; [lia|]. by rewrite Z.add_0_l.
Qed.

(** On an inventory without negative counts, the dashboard's number of
    flavors in stock is at most its number of items, and one of the two
    is zero exactly when the other is. *)
Theorem dashboard_totals (w w1 : world) (page : Routes.dashboard_page) :
  counts_nonneg w ->
  Routes.dashboard w = (Returns page, w1) ->
  0 <= Routes.total_flavors page <= Routes.total_items page /\
  (Routes.total_items page = 0 <-> Routes.total_flavors page = 0).
Proof.
  intros Hn. unfold Routes.dashboard, bind.
  destruct (keeps_get_inventory w Hn) as [_ Hq].
  destruct (get_inventory w) as [[inv|] w0]; [|discriminate].
  specialize (Hq inv eq_refl). intros [= <- <-]. simpl.
  assert (Hall : Forall (fun c => 0 <= c) (List.map snd (map_to_list inv))).
  { apply Forall_forall. intros c Hin%list_elem_of_In%in_map_iff.
    destruct Hin as ([f c'] & <- & Hin%in_map_to_list). by apply (Hq f c'). }
  destruct (sum_nonneg _ Hall) as [H1 H2]. split; [lia|].
  rewrite H2. split.
  - by intros ->.
  - intros H0. apply length_zero_iff_nil. lia.
Qed.

Lemma pantry_nonneg : counts_nonneg pantry.
Proof.
  split; [|intros db Hdb; discriminate Hdb].
  intros m [= <-]. intros f c.
  rewrite !lookup_insert. repeat case_decide; rewrite ?lookup_empty;
    intros [= <-]; lia.
Qed.

Lemma dashboard_totals_witness :
  exists page,
    Routes.dashboard pantry = (Returns page, pantry) /\
    0 <= Routes.total_flavors page <= Routes.total_items page /\
    (Routes.total_items page = 0 <-> Routes.total_flavors page = 0).
Proof.
  eexists. split; [reflexivity|].
  apply (dashboard_totals pantry pantry _ pantry_nonneg). reflexivity.
Defined.

(** ** Sales data and the sales report *)

Lemma string_leb_refl s : String.leb s s = true.
Proof. by destruct (String.leb_total s s). Qed.

Lemma filter_insert_by_key (k : string) (x : sale) (l : list sale) :
  List.filter (fun y => String.eqb (timestamp_key y) k)
    (PyStr.insert_by (PyStr.key_le timestamp_key) x l)
  = List.filter (fun y => String.eqb (timestamp_key y) k) (x :: l).
Proof.
  induction l as [|y l IH]; [done|]. simpl PyStr.insert_by.
  destruct (PyStr.key_le timestamp_key x y) eqn:Hle; [done|].
  simpl in *. rewrite IH.
  destruct (String.eqb_spec (timestamp_key x) k) as [Hx|Hx],
           (String.eqb_spec (timestamp_key y) k) as [Hy|Hy]; try done.
  unfold PyStr.key_le in Hle. rewrite Hx, Hy, string_leb_refl in Hle.
  discriminate.
Qed.

Lemma filter_sort_by_key (k : string) (l : list sale) :
  List.filter (fun y => String.eqb (timestamp_key y) k)
    (PyStr.sort_by (PyStr.key_le timestamp_key) l)
  = List.filter (fun y => String.eqb (timestamp_key y) k) l.
Proof.
  induction l as [|x l IH]; [done|]. simpl PyStr.sort_by.
  rewrite filter_insert_by_key. simpl. by rewrite IH.
Qed.

Lemma load_sales_json_local w :
  supabase w = None -> load_sales_json w = (Returns (sales_log w), w).
Proof.
  intros Hs. unfold sales_log. rewrite Hs.
  unfold load_sales_json, _load_from_file, bind, try_except, json_load.
  by destruct (sales_json w).
Qed.

Lemma get_sales_data_local order days w :
  supabase w = None ->
  get_sales_data order days w
  = (Returns (PyStr.sorted timestamp_key true (sales_log w)), w).
Proof.
  intros Hs. unfold get_sales_data, try_except, if_supabase, bind.
  by rewrite Hs, (load_sales_json_local w Hs).
Qed.

(** In local mode the sort of [get_sales_data] is stable: the records
    that carry one and the same timestamp come out in the order in
    which the log holds them. *)
Theorem get_sales_data_stable
  (order : list sale -> list sale) (days : Z) (w : world) (t : string) :
  supabase w = None ->
  exists result,
    get_sales_data order days w = (Returns result, w) /\
    List.filter (fun y => String.eqb (timestamp_key y) t) result
    = List.filter (fun y => String.eqb (timestamp_key y) t) (sales_log w).
Proof.
  intros Hs. rewrite (get_sales_data_local order days w Hs).
  eexists; split; [reflexivity|]. unfold PyStr.sorted.
  rewrite List.filter_rev, filter_sort_by_key, List.filter_rev.
  apply rev_involutive.
Qed.

Lemma get_sales_data_stable_witness :
  exists result,
    get_sales_data (fun l => l) 30 ledger = (Returns result, ledger) /\
    List.filter (fun y => String.eqb (timestamp_key y) "") result
    = List.filter (fun y => String.eqb (timestamp_key y) "") (sales_log ledger).
Proof.
  apply (get_sales_data_stable (fun l => l) 30 ledger ""). reflexivity.
Defined.

(** [get_sales_data] never raises and writes nothing.  On the remote
    backend it returns at most 100 records, and none when the query
    raises; in local mode it returns every record of the log, however
    many. *)
Theorem get_sales_data_bounds
  (order : list sale -> list sale) (days : Z) (w : world) :
  exists result w',
    get_sales_data order days w = (Returns result, w') /\
    same_store w w' /\
    (is_Some (supabase w) -> (length result <= 100)%nat) /\
    (forall db rest, supabase w = Some db -> faults w = true :: rest ->
       result = []) /\
    (supabase w = None -> length result = length (sales_log w)).
Proof.
  destruct (supabase w) as [db|] eqn:Hs.
  - unfold get_sales_data, try_except, if_supabase, execute. rewrite Hs.
    pose proof (same_store_next_fault w) as Hn.
    destruct (next_fault w) as [[|] w1] eqn:Hnf; simpl in *.
    + do 2 eexists. split; [reflexivity|]. split; [done|].
      split; [simpl; lia|]. split; [done|]. discriminate.
    + do 2 eexists. split; [reflexivity|]. split.
      { destruct Hn as (? & ? & ? & Hsb & ? & ?). unfold same_store. simpl.
        rewrite Hs. by repeat split. }
      split; [intros _; rewrite length_take; lia|]. split; [|discriminate].
      intros db' rest _ Hf. unfold next_fault in Hnf. rewrite Hf in Hnf.
      discriminate.
  - rewrite (get_sales_data_local order days w Hs).
    do 2 eexists. split; [reflexivity|]. split; [apply same_store_refl|].
    split; [by intros [? ?]|]. split; [discriminate|]. intros _.
    symmetry. apply Permutation_length, sorted_permutation.
Qed.

Section SortBy.
Context {A : Type} (le : A -> A -> bool).
Hypothesis le_total : forall a b, le a b = true \/ le b a = true.
Hypothesis le_trans : forall a b c, le a b = true -> le b c = true -> le a c = true.

Lemma insert_by_permutation x l : Permutation (x :: l) (PyStr.insert_by le x l).
Proof.
  induction l as [|y l IH]; simpl; [done|].
  destruct (le x y); [done|]. rewrite perm_swap. by constructor.
Qed.

Lemma sort_by_permutation l : Permutation l (PyStr.sort_by le l).
Proof.
  induction l as [|x l IH]; simpl; [done|].
  rewrite <- insert_by_permutation. by constructor.
Qed.

Lemma insert_by_ordered x l :
  StronglySorted (fun a b => le a b = true) l ->
  StronglySorted (fun a b => le a b = true) (PyStr.insert_by le x l).
Proof.
  induction 1 as [|y l Hs IH Hy]; simpl; [by repeat constructor|].
  destruct (le x y) eqn:Hxy.
  - constructor; [by constructor|]. constructor; [done|].
    eapply Forall_impl; [exact Hy|]. intros z Hz. by eapply le_trans.
  - constructor; [done|].
    rewrite <- insert_by_permutation. constructor; [|done].
    destruct (le_total x y) as [H|H]; [congruence|done].
Qed.

Lemma sort_by_ordered l :
  StronglySorted (fun a b => le a b = true) (PyStr.sort_by le l).
Proof.
  induction l as [|x l IH]; simpl; [constructor|]. by apply insert_by_ordered.
Qed.

End SortBy.

Lemma sorted_by_total_perm l : Permutation l (Routes.sorted_by_total l).
Proof.
  unfold Routes.sorted_by_total.
  rewrite <- Permutation_rev, <- sort_by_permutation. apply Permutation_rev.
Qed.

Lemma strongly_sorted_weaken {A : Type} (R R' : A -> A -> Prop) l :
  (forall a b, R a b -> R' a b) -> StronglySorted R l -> StronglySorted R' l.
Proof.
  intros HR. induction 1 as [|x l Hs IH Hx]; constructor; [done|].
  eapply Forall_impl; [exact Hx|]. auto.
Qed.

Lemma sorted_by_total_sorted l :
  StronglySorted sells_at_least (Routes.sorted_by_total l).
Proof.
  unfold Routes.sorted_by_total.
  eapply strongly_sorted_weaken;
    [|apply (sorted_rev (fun a b : string * Z => (snd a <=? snd b) = true)),
        sort_by_ordered].
  - intros a b H. unfold sells_at_least. by apply Z.leb_le in H.
  - intros a b. destruct (Z.leb_spec (snd a) (snd b)); [by left|right].
    apply Z.leb_le. lia.
  - intros a b c H1%Z.leb_le H2%Z.leb_le. apply Z.leb_le. lia.
Qed.

Lemma total_of_bump f q totals g :
  total_of g (Routes.bump f q totals)
  = if String.eqb f g
    then Some (match total_of f totals with Some t => t + q | None => q end)
    else total_of g totals.
Proof.
  induction totals as [|[h t] rest IH]; simpl.
  - rewrite String.eqb_sym. by destruct (String.eqb_spec f g).
  - destruct (String.eqb_spec h f) as [->|Hhf]; simpl.
    + destruct (String.eqb_spec f g) as [->|Hfg]; [done|done].
    + rewrite IH. destruct (String.eqb_spec h g) as [->|Hhg].
      * destruct (String.eqb_spec f g); [congruence|done].
      * done.
Qed.

Lemma bump_keys f q totals :
  NoDup (List.map fst totals) ->
  NoDup (List.map fst (Routes.bump f q totals)) /\
  forall g, In g (List.map fst (Routes.bump f q totals))
            <-> g = f \/ In g (List.map fst totals).
Proof.
  induction totals as [|[h t] rest IH]; simpl.
  - intros _. split; [apply NoDup_singleton|]. intros g. intuition.
  - intros [Hh Hrest]%NoDup_cons. destruct (IH Hrest) as [IH1 IH2].
    destruct (String.eqb_spec h f) as [->|Hhf]; simpl.
    + split; [by apply NoDup_cons|]. intros g. intuition.
    + split.
      * apply NoDup_cons. split; [|done]. rewrite list_elem_of_In, IH2.
        rewrite <- list_elem_of_In. intuition.
      * intros g. rewrite IH2. intuition.
Qed.

Lemma bump_sum f q totals :
  foldr Z.add 0 (List.map snd (Routes.bump f q totals))
  = foldr Z.add 0 (List.map snd totals) + q.
Proof.
  induction totals as [|[h t] rest IH]; simpl; [lia|].
  destruct (String.eqb h f); simpl; lia.
Qed.

Lemma total_of_In f t totals :
  NoDup (List.map fst totals) ->
  (In (f, t) totals <-> total_of f totals = Some t).
Proof.
  induction totals as [|[h u] rest IH]; simpl; [intuition discriminate|].
  intros [Hh Hrest]%NoDup_cons.
  destruct (String.eqb_spec h f) as [->|Hhf].
  - split; [|intros [= ->]; by left]. intros [[= ->]|Hin]; [done|].
    exfalso. apply Hh, list_elem_of_In, in_map_iff. by exists (f, t).
  - rewrite <- (IH Hrest). split; [|by right].
    intros [[= -> ->]|Hin]; [done|done].
Qed.

Lemma count_sales_snoc today l s :
  Routes.count_sales today (l ++ [s])
  = Routes.count_sale today (Routes.count_sales today l) s.
Proof. unfold Routes.count_sales. by rewrite foldl_app. Qed.

Lemma quantity_where_snoc p l s :
  quantity_where p (l ++ [s])
  = quantity_where p l + (if p s then quantity s else 0).
Proof.
  unfold quantity_where. rewrite List.filter_app, map_app. simpl.
  generalize (List.map quantity (List.filter p l)). intros qs.
  destruct (p s); simpl; induction qs; simpl; lia.
Qed.

Lemma quantity_where_none p l : existsb p l = false -> quantity_where p l = 0.
Proof.
  unfold quantity_where. induction l as [|s l IH]; simpl; [done|].
  intros [Hs Hl]%orb_false_elim. rewrite Hs. by apply IH.
Qed.

Lemma count_sales_today today sales :
  Routes.today_sales (Routes.count_sales today sales)
  = List.filter (sold_on today) sales /\
  Routes.total_sales_today (Routes.count_sales today sales)
  = quantity_where (sold_on today) sales.
Proof.
  induction sales as [|s sales [IH1 IH2]] using rev_ind; [done|].
  rewrite count_sales_snoc, List.filter_app, quantity_where_snoc.
  unfold Routes.count_sale. simpl. fold (sold_on today s).
  rewrite IH1, IH2.
  destruct (sold_on today s); simpl; rewrite ?app_nil_r; split; (done || lia).
Qed.

Lemma count_sales_keys today sales :
  NoDup (List.map fst (Routes.flavor_totals (Routes.count_sales today sales))).
Proof.
  induction sales as [|s sales IH] using rev_ind; [apply NoDup_nil_2|].
  rewrite count_sales_snoc. simpl. by apply bump_keys.
Qed.

Lemma count_sales_total_of today sales f :
  total_of f (Routes.flavor_totals (Routes.count_sales today sales))
  = if existsb (sale_of f) sales
    then Some (quantity_where (sale_of f) sales) else None.
Proof.
  induction sales as [|s sales IH] using rev_ind; [done|].
  rewrite count_sales_snoc. simpl.
  rewrite total_of_bump, existsb_app, quantity_where_snoc. simpl.
  rewrite orb_false_r. unfold sale_of at 2 4.
  destruct (String.eqb_spec (flavor s) f) as [->|Hne].
  - rewrite IH, orb_true_r.
    destruct (existsb _ sales) eqn:E; [done|].
    by rewrite (quantity_where_none _ _ E).
  - rewrite IH, orb_false_r. destruct (existsb _ sales); [|done].
    f_equal. lia.
Qed.

Lemma count_sales_sum today sales :
  foldr Z.add 0
    (List.map snd (Routes.flavor_totals (Routes.count_sales today sales)))
  = quantity_where (fun _ => true) sales.
Proof.
  induction sales as [|s sales IH] using rev_ind; [done|].
  rewrite count_sales_snoc, quantity_where_snoc. simpl.
  by rewrite bump_sum, IH.
Qed.

(** In the sales report, the list of today's sales is the sales data
    restricted to the records dated today, in the same order, and
    today's total is the sum of their quantities; a record without a
    date counts for no day. *)
Theorem sales_report_today (today : string) (sales_data : list sale) :
  Routes.report_today_sales (Routes.report today sales_data)
  = List.filter (sold_on today) sales_data /\
  Routes.report_total_sales_today (Routes.report today sales_data)
  = quantity_where (sold_on today) sales_data /\
  (today <> "" ->
   forall s, In s (Routes.report_today_sales (Routes.report today sales_data)) ->
             sale_date s = Some today).
Proof.
  destruct (count_sales_today today sales_data) as [H1 H2].
  split; [done|]. split; [done|]. intros Hne s. simpl. rewrite H1.
  intros [_ Hs]%filter_In. unfold sold_on in Hs.
  destruct (sale_date s) as [d|]; apply String.eqb_eq in Hs; congruence.
Qed.

(** The loop of the sales report gives every flavor that occurs in the
    sales data exactly one total, the sum of the quantities of its
    records, and gives no total to any other flavor; the totals add up
    to the sum of all quantities. *)
Theorem sales_report_flavor_totals (today : string) (sales_data : list sale) :
  let totals := Routes.flavor_totals (Routes.count_sales today sales_data) in
  (forall f q,
     In (f, q) totals <->
     (exists s, In s sales_data /\ flavor s = f) /\
     q = quantity_where (sale_of f) sales_data) /\
  NoDup (List.map fst totals) /\
  foldr Z.add 0 (List.map snd totals) = quantity_where (fun _ => true) sales_data.
Proof.
  intros totals. split; [|split; [apply count_sales_keys | apply count_sales_sum]].
  intros f q. unfold totals.
  rewrite (total_of_In f q _ (count_sales_keys today sales_data)).
  rewrite count_sales_total_of.
  destruct (existsb (sale_of f) sales_data) eqn:E.
  - apply existsb_exists in E as (s & Hs & Hf%String.eqb_eq). split.
    + intros [= <-]. split; [by exists s | done].
    + by intros [_ ->].
  - split; [discriminate|]. intros [(s & Hs & Hf) _].
    assert (existsb (sale_of f) sales_data = true); [|congruence].
    apply existsb_exists. exists s. split; [done|]. by apply String.eqb_eq.
Qed.

(** The top flavors of the sales report are at most five of the flavor
    totals, in descending order of total, and no flavor left out has
    sold more than a flavor that is listed. *)
Theorem sales_report_top_flavors (today : string) (sales_data : list sale) :
  let totals := Routes.flavor_totals (Routes.count_sales today sales_data) in
  let top := Routes.top_flavors (Routes.report today sales_data) in
  (length top <= 5)%nat /\
  length top = Nat.min 5 (length totals) /\
  (forall x, In x top -> In x totals) /\
  StronglySorted sells_at_least top /\
  (forall x y, In x top -> In y totals -> ~ In y top -> snd y <= snd x).
Proof.
  intros totals top. unfold top, Routes.report. simpl. fold totals.
  pose proof (sorted_by_total_perm totals) as Hperm.
  pose proof (sorted_by_total_sorted totals) as Hsorted.
  set (S := Routes.sorted_by_total totals) in *.
  rewrite <- (take_drop 5 S) in Hsorted.
  apply StronglySorted_app in Hsorted as (Hcross & Htop & _).
  split; [rewrite length_take; apply Nat.le_min_l|].
  split; [by rewrite length_take, (Permutation_length Hperm)|].
  split.
  - intros x Hx. eapply Permutation_in; [symmetry; exact Hperm|].
    rewrite <- (take_drop 5 S). apply in_or_app. by left.
  - split; [done|]. intros x y Hx Hy Hout.
    apply (Permutation_in _ Hperm) in Hy. rewrite <- (take_drop 5 S) in Hy.
    apply in_app_or in Hy as [Hy|Hy]; [done|].
    apply Hcross; by apply list_elem_of_In.
Qed.

(** In local mode the page of recent sales shows the first twenty
    records of the sales data, so at most twenty, and no record left off
    the page is newer than a record on it. *)
Theorem sales_report_recent_sales
  (order : list sale -> list sale) (w : world) :
  supabase w = None ->
  exists page,
    Routes.sales_report order w = (Returns page, w) /\
    (length (Routes.recent_sales page) <= 20)%nat /\
    length (Routes.recent_sales page) = Nat.min 20 (length (sales_log w)) /\
    (forall x, In x (Routes.recent_sales page) -> In x (sales_log w)) /\
    StronglySorted newer_or_equal (Routes.recent_sales page) /\
    (forall x y, In x (Routes.recent_sales page) -> In y (sales_log w) ->
                 ~ In y (Routes.recent_sales page) -> newer_or_equal x y).
Proof.
  intros Hs. unfold Routes.sales_report, bind.
  rewrite (get_sales_data_local order 30 w Hs).
  eexists; split; [reflexivity|]. simpl.
  pose proof (sorted_permutation (sales_log w)) as Hperm.
  pose proof (sorted_descending (sales_log w)) as Hsorted.
  set (S := PyStr.sorted timestamp_key true (sales_log w)) in *.
  rewrite <- (take_drop 20 S) in Hsorted.
  apply StronglySorted_app in Hsorted as (Hcross & Htop & _).
  split; [rewrite length_take; apply Nat.le_min_l|].
  split; [by rewrite length_take, (Permutation_length Hperm)|].
  split.
  - intros x Hx. eapply Permutation_in; [symmetry; exact Hperm|].
    rewrite <- (take_drop 20 S). apply in_or_app. by left.
  - split; [done|]. intros x y Hx Hy Hout.
    apply (Permutation_in _ Hperm) in Hy. rewrite <- (take_drop 20 S) in Hy.
    apply in_app_or in Hy as [Hy|Hy]; [done|].
    apply Hcross; by apply list_elem_of_In.
Qed.

Lemma sales_report_recent_sales_witness :
  exists page,
    Routes.sales_report (fun l => l) ledger = (Returns page, ledger) /\
    (length (Routes.recent_sales page) <= 20)%nat /\
    length (Routes.recent_sales page) = Nat.min 20 (length (sales_log ledger)) /\
    (forall x, In x (Routes.recent_sales page) -> In x (sales_log ledger)) /\
    StronglySorted newer_or_equal (Routes.recent_sales page) /\
    (forall x y, In x (Routes.recent_sales page) -> In y (sales_log ledger) ->
                 ~ In y (Routes.recent_sales page) -> newer_or_equal x y).
Proof.
  apply (sales_report_recent_sales (fun l => l) ledger). reflexivity.
Defined.

(** ** The form and API routes *)

Lemma keeps_handle p : keeps (Routes.handle p) (fun _ => True).
Proof.
  destruct p as [[f|] n|[f|] q|s]; simpl.
  - unfold Routes.add_stock.
    destruct (_ && (0 <? n)) eqn:E; [|by apply keeps_ret].
    apply andb_prop in E as [_ Hn%Z.ltb_lt].
    eapply keeps_bind; [apply keeps_update_inventory; right; lia|].
    intros [|] _; by apply keeps_ret.
  - by apply keeps_ret.
  - unfold Routes.record_sale.
    destruct (_ && (0 <? q)); [|by apply keeps_ret].
    eapply keeps_bind; [apply keeps_record_sale|].
    intros [|] _; by apply keeps_ret.
  - by apply keeps_ret.
  - unfold Routes.manage_flavors.
    destruct (negb _); [|by apply keeps_ret].
    eapply keeps_bind; [apply keeps_add_new_flavor|].
    intros [|] _; by apply keeps_ret.
Qed.

Lemma serve_snoc ps p w :
  Routes.serve (ps ++ [p]) w = snd (Routes.handle p (Routes.serve ps w)).
Proof. unfold Routes.serve. by rewrite foldl_app. Qed.

(** Whatever is submitted through the three forms, in any number and
    order and whatever fails on the way, a store without negative counts
    stays without negative counts: the forms only add positive amounts
    and only sell positive quantities. *)
Theorem forms_keep_counts_nonneg (ps : list Routes.post) (w : world) :
  counts_nonneg w ->
  counts_nonneg (Routes.serve ps w) /\
  forall inv w', get_inventory (Routes.serve ps w) = (Returns inv, w') ->
    forall f c, inv !! f = Some c -> 0 <= c.
Proof.
  intros Hw.
  assert (Hn : counts_nonneg (Routes.serve ps w)).
  { induction ps as [|p ps IH] using rev_ind; [done|].
    rewrite serve_snoc. by apply (keeps_handle p). }
  split; [done|]. intros inv w' Hget f c Hf.
  destruct (keeps_get_inventory _ Hn) as [_ Hq].
  rewrite Hget in Hq. by apply (Hq inv eq_refl f c).
Qed.

Lemma forms_keep_counts_nonneg_witness :
  let ps := [ Routes.PostAddStock (Some "Vanilla") 50;
              Routes.PostAddStock (Some "Vanilla") (-80);
              Routes.PostRecordSale (Some "Vanilla") 20;
              Routes.PostRecordSale (Some "Kulfi") (-2);
              Routes.PostManageFlavors (Some " rum raisin") ] in
  counts_nonneg (Routes.serve ps shop) /\
  forall inv w', get_inventory (Routes.serve ps shop) = (Returns inv, w') ->
    forall f c, inv !! f = Some c -> 0 <= c.
Proof.
  intros ps. apply (forms_keep_counts_nonneg ps shop).
  apply all_zero_nonneg, shop_all_zero.
Defined.

(** A form submission without a flavor, with an empty flavor, or with a
    count or quantity that is not positive is answered with an error
    message and reaches neither the store nor the fault schedule. *)
Theorem forms_reject_invalid_input
  (flavor : option string) (n : Z) (w : world) :
  Routes.truthy flavor = false \/ n <= 0 ->
  Routes.add_stock flavor n w
  = (Returns {| Routes.message := Routes.InvalidFlavorAndCount;
                Routes.category := "error" |}, w) /\
  Routes.record_sale flavor n w
  = (Returns {| Routes.message := Routes.InvalidFlavorAndQuantity;
                Routes.category := "error" |}, w).
Proof.
  intros Hbad. unfold Routes.add_stock, Routes.record_sale.
  destruct flavor as [f|]; [|done].
  assert (Routes.truthy (Some f) && (0 <? n) = false) as ->; [|done].
  destruct Hbad as [->|Hn]; [done|]. apply andb_false_iff. right.
  apply Z.ltb_ge. lia.
Qed.

Lemma forms_reject_invalid_input_witness :
  Routes.add_stock (Some "Vanilla") 0 stocked
  = (Returns {| Routes.message := Routes.InvalidFlavorAndCount;
                Routes.category := "error" |}, stocked) /\
  Routes.record_sale (Some "Vanilla") 0 stocked
  = (Returns {| Routes.message := Routes.InvalidFlavorAndQuantity;
                Routes.category := "error" |}, stocked).
Proof.
  apply (forms_reject_invalid_input (Some "Vanilla") 0 stocked).
  right. discriminate.
Defined.



(** ** What a write leaves alone *)




(** ** Failures that go unreported *)



(** On the remote backend, when the read of the inventory fails and the
    two calls after it succeed, [update_inventory] computes the new
    count from a count of zero: adding [n] to a flavor stores [n],
    whatever the table held, and the call returns [True]. *)
Theorem update_inventory_after_failed_read
  (w : world) (db : client) (f : string) (n : Z) :
  supabase w = Some db -> faults w = [true] ->
  exists w',
    update_inventory f n "add" w = (Returns true, w') /\
    snapshot w' !! f = Some n /\ faults w' = [].
Proof.
  intros Hs Hf. unfold update_inventory, try_except, bind.
  assert (Hget : get_inventory w
                 = (Returns (default_inventory (flavors w)), set_faults [] w)).
  { unfold get_inventory, try_except, if_supabase, bind, execute, next_fault.
    by rewrite Hs, Hf. }
  rewrite Hget. unfold if_supabase. simpl supabase. rewrite Hs.
  assert (Hc : new_count (default_inventory (flavors w)) f n "add" = n).
  { unfold new_count, dict_get. simpl. rewrite default_inventory_lookup.
    destruct (list_contains _ _); lia. }
  rewrite Hc.
  rewrite (execute_quiet _ (set_faults [] w) db eq_refl Hs).
  unfold Query.select_inventory_eq. cbn [fst snd].
  rewrite (set_supabase_same (set_faults [] w) db Hs).
  destruct (List.filter _ (inventory_tbl db)) as [|r0 rs] eqn:Hflt; cbv beta iota.
  - rewrite (execute_quiet _ (set_faults [] w) db eq_refl Hs).
    eexists; split; [reflexivity|]. unfold snapshot, ret. simpl.
    rewrite rows_to_dict_snoc. simpl. by rewrite lookup_insert_eq.
  - rewrite (execute_quiet _ (set_faults [] w) db eq_refl Hs).
    eexists; split; [reflexivity|]. unfold snapshot, ret. simpl.
    rewrite rows_to_dict_update.
    destruct (has_row f (inventory_tbl db)) eqn:Hh.
    + by rewrite lookup_insert_eq.
    + apply filter_nil_has_row in Hh. congruence.
Qed.

Lemma update_inventory_after_failed_read_witness :
  exists w',
    update_inventory "Vanilla" 3 "add" offline_cloud = (Returns true, w') /\
    snapshot w' !! "Vanilla" = Some 3 /\ faults w' = [].
Proof.
  eapply (update_inventory_after_failed_read offline_cloud); reflexivity.
Defined.

(** ** The sales log only grows *)

Lemma log_grows_refl w : log_grows w w.
Proof. split; [done | reflexivity]. Qed.


Lemma log_grows_same_sales w w' :
  supabase w' = supabase w -> sales_json w' = sales_json w -> log_grows w w'.
Proof.
  intros Hs Hj. split; [by rewrite Hs|]. unfold sales_log. by rewrite Hs, Hj.
Qed.

Section Moves.
Context {A B : Type}.






End Moves.

Lemma log_grows_next_fault w : log_grows w (snd (next_fault w)).
Proof.
  unfold next_fault. destruct (faults w); [apply log_grows_refl|].
  by apply log_grows_same_sales.
Qed.












(** ** [self.flavors] *)

(** After a successful [add_new_flavor] with no failure pending, a name
    that [self.flavors] already had leaves the list as it was; a new
    name makes the list an alphabetically sorted rearrangement of the
    old list and the name. *)
Theorem add_new_flavor_sorts_flavors (w w' : world) (name : string) :
  faults w = [] ->
  add_new_flavor name w = (Returns true, w') ->
  let flavor := PyStr.title (PyStr.strip name) in
  if list_contains (flavors w) flavor then flavors w' = flavors w
  else Permutation (flavors w ++ [flavor]) (flavors w') /\
       StronglySorted (fun a b => String.leb a b = true) (flavors w').
Proof.
  intros Hf Hadd flavor. revert Hadd. unfold add_new_flavor, try_except.
  fold flavor. destruct (String.eqb flavor ""); [discriminate|].
  unfold bind. rewrite (get_inventory_quiet w Hf).
  destruct (snapshot w !! flavor); [discriminate|]. unfold if_supabase.
  assert (Hrem : forall v, flavors v = flavors w ->
            flavors (snd (remember_flavor flavor v))
            = if list_contains (flavors w) flavor then flavors w
              else PyStr.sorted (fun x => x) false (flavors w ++ [flavor])).
  { intros v Hv. unfold remember_flavor. rewrite Hv.
    by destruct (list_contains (flavors w) flavor). }
  assert (Hfin : forall w2, 
            flavors w2
            = (if list_contains (flavors w) flavor then flavors w
               else PyStr.sorted (fun x => x) false (flavors w ++ [flavor])) ->
            if list_contains (flavors w) flavor then flavors w2 = flavors w
            else Permutation (flavors w ++ [flavor]) (flavors w2) /\
                 StronglySorted (fun a b => String.leb a b = true) (flavors w2)).
  { intros w2 ->. destruct (list_contains (flavors w) flavor); [done|]. split.
    - apply (sort_by_perm (fun x => x)).
    - apply (sort_by_sorted (fun x : string => x)). }
  destruct (supabase w) as [db|] eqn:Hs.
  - rewrite (execute_quiet _ w db Hf Hs). simpl fst. simpl snd.
    match goal with |- context [remember_flavor flavor ?v] =>
      pose proof (Hrem v eq_refl) as Hr;
      destruct (remember_flavor_spec flavor v) as (w2 & Hw2 & _);
      rewrite Hw2 in *; simpl in Hr
    end.
    intros [= <-]. by apply Hfin.
  - rewrite (save_quiet _ _ w Hf).
    match goal with |- context [remember_flavor flavor ?v] =>
      pose proof (Hrem v eq_refl) as Hr;
      destruct (remember_flavor_spec flavor v) as (w2 & Hw2 & _);
      rewrite Hw2 in *; simpl in Hr
    end.
    intros [= <-]. by apply Hfin.
Qed.

Lemma add_new_flavor_sorts_flavors_witness :
  Permutation (flavors shop ++ ["Rum Raisin"])
    (flavors (snd (add_new_flavor " rum raisin" shop))) /\
  StronglySorted (fun a b => String.leb a b = true)
    (flavors (snd (add_new_flavor " rum raisin" shop))).
Proof.
  apply (add_new_flavor_sorts_flavors shop _ " rum raisin"); reflexivity.
Defined.

(** The JSON endpoint for recording a sale answers 400 and stores
    nothing when the count that [get_inventory] reports is below the
    quantity, in either storage mode and whatever fails. *)
Theorem api_record_sale_insufficient_stock
  (flavor : string) (quantity : Z) (w : world) :
  stock w flavor < quantity ->
  exists w',
    Routes.api_record_sale flavor quantity w
    = (Returns {| Routes.success := false; Routes.status := 400 |}, w') /\
    same_store w w'.
Proof.
  intros Hlt. unfold stock in Hlt.
  destruct (get_inventory_returns w) as (inv & w1 & Hget & Hsame & _).
  rewrite Hget in Hlt. simpl in Hlt. apply Z.ltb_lt in Hlt.
  unfold Routes.api_record_sale, bind, record_sale, try_except, bind.
  rewrite Hget, Hlt. by exists w1.
Qed.

Lemma api_record_sale_insufficient_stock_witness :
  exists w',
    Routes.api_record_sale "Vanilla" 60 stocked
    = (Returns {| Routes.success := false; Routes.status := 400 |}, w') /\
    same_store stocked w'.
Proof.
  apply (api_record_sale_insufficient_stock "Vanilla" 60 stocked).
  vm_compute. reflexivity.
Defined.

